(** * blender-uv-layout: layout, annotation and metadata of the UV guide sheet

    A shallow embedding of [blender-uv-layout.py] and the properties of its
    layout engine, annotator and metadata emitter.

    Numbers.  Python [int] is [Z].  Python [float] is modelled by the exact
    rationals [Q]: every operation the script performs on floats ([+], [-],
    [*], [/], comparison, [round]) is the exact one.  What is stated below
    about the configurations [flush], [cramped] and [hollow] rests on values
    that binary64 arithmetic computes exactly as well.  [//] on integers is
    floor division, which is [Z.div].

    Pillow.  The calls on the [ImageDraw] object are recorded, not
    interpreted; [math.hypot] is a parameter of the drawing code. *)

From Stdlib Require Import ZArith QArith Qround Qabs Qminmax.
From Stdlib Require Import Lia Lqa List String.
Import ListNotations.

Local Open Scope string_scope.
Local Open Scope list_scope.
Local Open Scope Z_scope.

Set Warnings "-register-all".

(* ====================================================================== *)
(** ** Python primitives used by the script *)
(* ====================================================================== *)

Module Py.

(** Exceptions the script can raise on its own. *)
Inductive exn : Type :=
| ZeroDivisionError.

(** A computation that returns or raises. *)
Inductive result (A : Type) : Type :=
| Ok (a : A)
| Err (e : exn).
Arguments Ok {A} a.
Arguments Err {A} e.

Definition rbind {A B} (r : result A) (k : A -> result B) : result B :=
  match r with
  | Ok a => k a
  | Err e => Err e
  end.

(** [max(a, b)]: the first argument unless the second is greater. *)
Definition max (a b : Q) : Q :=
  match (a ?= b)%Q with
  | Lt => b
  | _ => a
  end.

(** [min(a, b)]: the first argument unless the second is smaller. *)
Definition min (a b : Q) : Q :=
  match (b ?= a)%Q with
  | Lt => b
  | _ => a
  end.

(** [round(x)] on a float: nearest integer, ties to the even one. *)
Definition round (x : Q) : Z :=
  let f := Qfloor x in
  match (x - inject_Z f ?= 1 # 2)%Q with
  | Lt => f
  | Gt => f + 1
  | Eq => if Z.even f then f else f + 1
  end.

(** [sum(l)]: left to right, starting from the integer 0. *)
Definition sum (l : list Q) : Q := fold_left Qplus l 0%Q.
Definition isum (l : list Z) : Z := fold_left Z.add l 0.

(** [a / b] with a float divisor. *)
Definition div (a b : Q) : result Q :=
  if Qeq_bool b 0 then Err ZeroDivisionError else Ok (a / b)%Q.

(** [l[i]] and [l[i] = v] on a list; the script only indexes inside the
    bounds ([range(2)] on two-element lists, [range(3)] on three-element
    ones), where Python raises nothing. *)
Definition get {A} (d : A) (l : list A) (i : nat) : A := nth i l d.

Fixpoint set {A} (l : list A) (i : nat) (v : A) : list A :=
  match l, i with
  | [], _ => []
  | _ :: t, O => v :: t
  | h :: t, S j => h :: set t j v
  end.

(** [name.startswith(p)]. *)
Definition startswith (name p : string) : bool := String.prefix p name.

End Py.

Import Py.

Notation "x <- c1 ;; c2" := (rbind c1 (fun x => c2))
  (at level 61, c1 at next level, right associativity).

(* ====================================================================== *)
(** ** Configuration (lines 23-75) *)
(* ====================================================================== *)

(** A face: [(name, width_m, height_m)]. *)
Record Panel : Type := mkPanel {
  name : string;
  width_m : Q;
  height_m : Q
}.

(** The grid is three rows of two faces: [grid[r] = [left, right]]. *)
Record Grid : Type := mkGrid {
  row0 : Panel * Panel;
  row1 : Panel * Panel;
  row2 : Panel * Panel
}.

(** [grid[r][c]] for [r] in [range(3)] and [c] in [range(2)]. *)
Definition cell (g : Grid) (r c : nat) : Panel :=
  let row := match r with
             | O => row0 g
             | S O => row1 g
             | _ => row2 g
             end in
  match c with
  | O => fst row
  | _ => snd row
  end.

Record Config : Type := mkConfig {
  L : Q;
  W : Q;
  H : Q;
  CANVAS_W : Z;
  CANVAS_H : Z;
  MARGIN_PX : Z;
  COL_GAP_PX : Z;
  ROW_GAP_PX : Z;
  SAFE_INSET_MM : Q;
  TICK_LEN_MM : Q;
  TICK_THICK_MM : Q;
  CUT_THICK_MM : Q;
  DASH_LEN_MM : Q;
  GAP_LEN_MM : Q;
  grid : Grid
}.

(** [faces] and [grid] as the script builds them from the box dimensions. *)
Definition faces (l w h : Q) : list Panel :=
  [ mkPanel "SIDE A" l h;
    mkPanel "END A" w h;
    mkPanel "TOP" l w;
    mkPanel "BOTTOM" l w;
    mkPanel "SIDE B" l h;
    mkPanel "END B" w h ].

Definition box_grid (l w h : Q) : Grid :=
  let f i := nth i (faces l w h) (mkPanel "" 0 0) in
  mkGrid (f 0%nat, f 1%nat) (f 2%nat, f 3%nat) (f 4%nat, f 5%nat).

(** The configuration shipped with the script. *)
Definition shipped : Config :=
  let l := (122 # 10)%Q in
  let w := (3048 # 1000)%Q in
  let h := (31 # 10)%Q in
  mkConfig l w h 2048 2048 60 40 40
           50 30 6 8 25 15
           (box_grid l w h).

(* ====================================================================== *)
(** ** Layout scale (lines 134-174) *)
(* ====================================================================== *)

Section Scale.

Variable cfg : Config.

(** Lines 135-141: column and row maxima, in meters. *)
Definition extents : list Q * list Q :=
  fold_left
    (fun acc r =>
       fold_left
         (fun acc c =>
            let '(cols, rows) := acc in
            let p := cell (grid cfg) r c in
            (Py.set cols c (Py.max (Py.get 0%Q cols c) (width_m p)),
             Py.set rows r (Py.max (Py.get 0%Q rows r) (height_m p))))
         (seq 0 2) acc)
    (seq 0 3)
    ([0%Q; 0%Q], [0%Q; 0%Q; 0%Q]).

Definition cols_m : list Q := fst extents.
Definition rows_m : list Q := snd extents.

Definition sum_cols_m : Q := Py.sum cols_m.
Definition sum_rows_m : Q := Py.sum rows_m.

(** Lines 147-148. *)
Definition avail_w_px : Z := CANVAS_W cfg - 2 * MARGIN_PX cfg - (2 - 1) * COL_GAP_PX cfg.
Definition avail_h_px : Z := CANVAS_H cfg - 2 * MARGIN_PX cfg - (3 - 1) * ROW_GAP_PX cfg.

(** Lines 151-153. *)
Definition s_w : result Q := Py.div (inject_Z avail_w_px) sum_cols_m.
Definition s_h : result Q := Py.div (inject_Z avail_h_px) sum_rows_m.
Definition s : result Q :=
  sw <- s_w ;;
  sh <- s_h ;;
  Ok (Py.min sw sh).

End Scale.

Section Scaled.

Variable cfg : Config.
(** The scale [s], once it has been computed. *)
Variable sc : Q.

(** Lines 155-156. *)
Definition mm_to_px (mm : Q) : Z :=
  Z.max 1 (Py.round ((mm / 1000) * sc)%Q).

(** Lines 159-160. *)
Definition cols_px : list Z := map (fun wm => Py.round (wm * sc)%Q) (cols_m cfg).
Definition rows_px : list Z := map (fun hm => Py.round (hm * sc)%Q) (rows_m cfg).

(** Lines 163-166. *)
Definition grid_w_px : Z := Py.isum cols_px + COL_GAP_PX cfg.
Definition grid_h_px : Z :=
  Py.isum rows_px + (Z.of_nat (List.length rows_px) - 1) * ROW_GAP_PX cfg.
Definition grid_x0 : Z := (CANVAS_W cfg - grid_w_px) / 2.
Definition grid_y0 : Z := (CANVAS_H cfg - grid_h_px) / 2.

(** Lines 169-174. *)
Definition CUT_W : Z := mm_to_px (CUT_THICK_MM cfg).
Definition TICK_W : Z := mm_to_px (TICK_THICK_MM cfg).
Definition TICK_LEN : Z := mm_to_px (TICK_LEN_MM cfg).
Definition SAFE_INSET : Z := mm_to_px (SAFE_INSET_MM cfg).
Definition DASH_LEN : Z := mm_to_px (DASH_LEN_MM cfg).
Definition GAP_LEN : Z := mm_to_px (GAP_LEN_MM cfg).

End Scaled.

(* ====================================================================== *)
(** ** The canvas and the metadata under construction *)
(* ====================================================================== *)

Inductive color : Type := BG | FG | ACCENT.

(** The strings handed to [draw.text]; the formatted numbers are kept as
    numbers. *)
Inductive caption : Type :=
| face_label (name : string) (wm hm : Q)
| seam_label
| title
| subtitle (l w h safe_inset_mm : Q).

Definition rect : Type := (Z * Z * Z * Z)%type.
Definition point : Type := (Q * Q)%type.

(** The calls made on the [ImageDraw] object, in order.  Integer
    coordinates of [draw.line] are injected into [Q]. *)
Inductive DrawOp : Type :=
| draw_rectangle (box : rect) (outline : color) (width : Z)
| draw_line (p1 p2 : point) (fill : color) (width : Z)
| draw_text (xy : Z * Z) (txt : caption) (fill : color).

(** Values that [json.dump] receives; a [dict] keeps its keys in insertion
    order. *)
Inductive json : Type :=
| JInt (z : Z)
| JFloat (q : Q)
| JStr (str : string)
| JBool (b : bool)
| JList (l : list json)
| JDict (kv : list (string * json)).

(** [d[k]] on a [JDict]; [None] where Python raises [KeyError]. *)
Fixpoint assoc (k : string) (kv : list (string * json)) : option json :=
  match kv with
  | [] => None
  | (k', v) :: kv' => if String.eqb k k' then Some v else assoc k kv'
  end.

Definition lookup (k : string) (j : json) : option json :=
  match j with
  | JDict kv => assoc k kv
  | _ => None
  end.

Definition has_key (k : string) (j : json) : bool :=
  match lookup k j with
  | Some _ => true
  | None => false
  end.

(** What the run has mutated so far: the draw calls on [img] and the list
    [metadata["faces"]]. *)
Record World : Type := mkWorld {
  drawn : list DrawOp;
  meta_faces : list json
}.

Inductive outcome (A : Type) : Type :=
| Done (a : A) (w : World)
| Raised (e : exn) (w : World)
| OutOfFuel.
Arguments Done {A} a w.
Arguments Raised {A} e w.
Arguments OutOfFuel {A}.

Definition M (A : Type) : Type := World -> outcome A.

Definition ret {A} (a : A) : M A := fun w => Done a w.

Definition bind {A B} (m : M A) (k : A -> M B) : M B :=
  fun w =>
    match m w with
    | Done a w' => k a w'
    | Raised e w' => Raised e w'
    | OutOfFuel => OutOfFuel
    end.

Definition lift {A} (r : result A) : M A :=
  fun w =>
    match r with
    | Ok a => Done a w
    | Err e => Raised e w
    end.

Definition draw (op : DrawOp) : M unit :=
  fun w => Done tt (mkWorld (drawn w ++ [op]) (meta_faces w)).

Definition append_face (j : json) : M unit :=
  fun w => Done tt (mkWorld (drawn w) (meta_faces w ++ [j])).

Declare Scope M_scope.
Delimit Scope M_scope with M.
Notation "x <~ c1 ;; c2" := (bind c1 (fun x => c2))
  (at level 61, c1 at next level, right associativity) : M_scope.
Notation "c1 ;;; c2" := (bind c1 (fun _ => c2))
  (at level 61, right associativity) : M_scope.

(* ====================================================================== *)
(** ** Helpers (lines 81-128) *)
(* ====================================================================== *)

Definition Qltb (a b : Q) : bool :=
  match (a ?= b)%Q with
  | Lt => true
  | _ => false
  end.

Definition qpoint (x y : Z) : point := (inject_Z x, inject_Z y).

Section Helpers.

(** [math.hypot], a library function. *)
Variable hypot : Q -> Q -> Q.

Local Open Scope M_scope.

(** Lines 89-96, the [while] loop.  It runs for as long as
    [dist < length]; [fuel] bounds the number of iterations. *)
Fixpoint dashed_loop (fuel : nat) (x1 y1 ux uy length dash_len gap_len : Q)
         (fill : color) (width : Z) (dist : Q) : M unit :=
  if Qltb dist length then
    match fuel with
    | O => fun _ => OutOfFuel
    | S fuel' =>
        let seg := Py.min dash_len (length - dist)%Q in
        let xs := (x1 + ux * dist)%Q in
        let ys := (y1 + uy * dist)%Q in
        let xe := (x1 + ux * (dist + seg))%Q in
        let ye := (y1 + uy * (dist + seg))%Q in
        draw (draw_line (xs, ys) (xe, ye) fill width) ;;;
        dashed_loop fuel' x1 y1 ux uy length dash_len gap_len fill width
                    (dist + (dash_len + gap_len))%Q
    end
  else ret tt.

(** Lines 81-96. *)
Definition dashed_line (fuel : nat) (p1 p2 : point) (dash_len gap_len : Q)
           (fill : color) (width : Z) : M unit :=
  let '(x1, y1) := p1 in
  let '(x2, y2) := p2 in
  let dx := (x2 - x1)%Q in
  let dy := (y2 - y1)%Q in
  let length := hypot dx dy in
  if Qle_bool length 0 then ret tt
  else
    let ux := (dx / length)%Q in
    let uy := (dy / length)%Q in
    dashed_loop fuel x1 y1 ux uy length dash_len gap_len fill width 0%Q.

(** Lines 98-103. *)
Definition dashed_rect (fuel : nat) (r : rect) (dash_len gap_len : Z)
           (fill : color) (width : Z) : M unit :=
  let '(x0, y0, x1, y1) := r in
  let d := inject_Z dash_len in
  let g := inject_Z gap_len in
  dashed_line fuel (qpoint x0 y0) (qpoint x1 y0) d g fill width ;;;
  dashed_line fuel (qpoint x1 y0) (qpoint x1 y1) d g fill width ;;;
  dashed_line fuel (qpoint x1 y1) (qpoint x0 y1) d g fill width ;;;
  dashed_line fuel (qpoint x0 y1) (qpoint x0 y0) d g fill width.

(** Lines 105-118. *)
Definition corner_ticks (r : rect) (tick_len width : Z) (fill : color) : M unit :=
  let '(x0, y0, x1, y1) := r in
  draw (draw_line (qpoint x0 y0) (qpoint (x0 + tick_len) y0) fill width) ;;;
  draw (draw_line (qpoint x0 y0) (qpoint x0 (y0 + tick_len)) fill width) ;;;
  draw (draw_line (qpoint x1 y0) (qpoint (x1 - tick_len) y0) fill width) ;;;
  draw (draw_line (qpoint x1 y0) (qpoint x1 (y0 + tick_len)) fill width) ;;;
  draw (draw_line (qpoint x1 y1) (qpoint (x1 - tick_len) y1) fill width) ;;;
  draw (draw_line (qpoint x1 y1) (qpoint x1 (y1 - tick_len)) fill width) ;;;
  draw (draw_line (qpoint x0 y1) (qpoint (x0 + tick_len) y1) fill width) ;;;
  draw (draw_line (qpoint x0 y1) (qpoint x0 (y1 - tick_len)) fill width).

End Helpers.

(** [a / b] on two integers: true division. *)
Definition true_div (a b : Z) : result Q :=
  if b =? 0 then Err ZeroDivisionError else Ok (inject_Z a / inject_Z b)%Q.

(** Lines 120-128. *)
Definition rect_to_uv (r : rect) (canvas_w canvas_h : Z) : result json :=
  let '(x0, y0, x1, y1) := r in
  u0 <- true_div x0 canvas_w ;;
  v0 <- true_div y0 canvas_h ;;
  u1 <- true_div x1 canvas_w ;;
  v1 <- true_div y1 canvas_h ;;
  Ok (JDict
        [ ("px", JDict [ ("x0", JInt x0); ("y0", JInt y0);
                         ("x1", JInt x1); ("y1", JInt y1) ]);
          ("uv", JDict [ ("u0", JFloat u0); ("v0", JFloat v0);
                         ("u1", JFloat u1); ("v1", JFloat v1) ]) ]).

(* ====================================================================== *)
(** ** Render loop (lines 179-266) *)
(* ====================================================================== *)

(** The local variables of one iteration of the row loop that the
    annotations and the metadata are computed from. *)
Record RowGeom : Type := mkRowGeom {
  name0 : string; wm0 : Q; hm0 : Q;
  name1 : string; wm1 : Q; hm1 : Q;
  cell_h : Z;
  cut0 : rect;
  cut1 : rect;
  safe0 : rect;
  safe1 : rect;
  butted : bool
}.

Section Rows.

Variable cfg : Config.
Variable sc : Q.

(** Lines 191-214 and 221-222, for row [r] starting at height [y]. *)
Definition row_geom (r : nat) (y : Z) : RowGeom :=
  let x_left := grid_x0 cfg sc in
  let cell_w_left := Py.get 0 (cols_px cfg sc) 0 in
  let cell_w_right := Py.get 0 (cols_px cfg sc) 1 in
  let cell_h := Py.get 0 (rows_px cfg sc) r in
  (* LEFT column face *)
  let p0 := cell (grid cfg) r 0 in
  let fw0 := Py.round (width_m p0 * sc)%Q in
  let fh0 := Py.round (height_m p0 * sc)%Q in
  let fx0_0 := x_left + (cell_w_left - fw0) / 2 in
  let fy0_0 := y + (cell_h - fh0) / 2 in
  let fx1_0 := fx0_0 + fw0 in
  let fy1_0 := fy0_0 + fh0 in
  (* RIGHT column face *)
  let x_right := x_left + cell_w_left + COL_GAP_PX cfg in
  let p1 := cell (grid cfg) r 1 in
  let fw1 := Py.round (width_m p1 * sc)%Q in
  let fh1 := Py.round (height_m p1 * sc)%Q in
  let is_butted :=
    Py.startswith (name p1) "END" && Py.startswith (name p0) "SIDE" in
  let fx0_1 :=
    if is_butted then fx1_0
    else x_right + (cell_w_right - fw1) / 2 in
  let fy0_1 := y + (cell_h - fh1) / 2 in
  let fx1_1 := fx0_1 + fw1 in
  let fy1_1 := fy0_1 + fh1 in
  let inset := SAFE_INSET cfg sc in
  mkRowGeom
    (name p0) (width_m p0) (height_m p0)
    (name p1) (width_m p1) (height_m p1)
    cell_h
    (fx0_0, fy0_0, fx1_0, fy1_0)
    (fx0_1, fy0_1, fx1_1, fy1_1)
    (fx0_0 + inset, fy0_0 + inset, fx1_0 - inset, fy1_0 - inset)
    (fx0_1 + inset, fy0_1 + inset, fx1_1 - inset, fy1_1 - inset)
    is_butted.

(** Lines 243-248 and 249-255: the two records of a row. *)
Definition left_record (g : RowGeom) : result json :=
  c <- rect_to_uv (cut0 g) (CANVAS_W cfg) (CANVAS_H cfg) ;;
  sf <- rect_to_uv (safe0 g) (CANVAS_W cfg) (CANVAS_H cfg) ;;
  Ok (JDict
        [ ("name", JStr (name0 g));
          ("meters", JDict [ ("w", JFloat (wm0 g)); ("h", JFloat (hm0 g)) ]);
          ("cut_rect", c);
          ("safe_rect", sf) ]).

Definition right_record (g : RowGeom) : result json :=
  c <- rect_to_uv (cut1 g) (CANVAS_W cfg) (CANVAS_H cfg) ;;
  sf <- rect_to_uv (safe1 g) (CANVAS_W cfg) (CANVAS_H cfg) ;;
  Ok (JDict
        [ ("name", JStr (name1 g));
          ("meters", JDict [ ("w", JFloat (wm1 g)); ("h", JFloat (hm1 g)) ]);
          ("cut_rect", c);
          ("safe_rect", sf);
          ("butted_to_side_right_edge", JBool (butted g)) ]).

Variable hypot : Q -> Q -> Q.

Local Open Scope M_scope.

(** Lines 190-257: one iteration; returns the next [y]. *)
Definition render_row (fuel : nat) (r : nat) (y : Z) : M Z :=
  let g := row_geom r y in
  let '(fx0_0, fy0_0, fx1_0, fy1_0) := cut0 g in
  let '(fx0_1, fy0_1, fx1_1, fy1_1) := cut1 g in
  let inset := SAFE_INSET cfg sc in
  let cut_w := CUT_W cfg sc in
  let dash_w := Z.max 1 (cut_w / 2) in
  (* Solid cut outlines *)
  draw (draw_rectangle (cut0 g) FG cut_w) ;;;
  draw (draw_rectangle (cut1 g) FG cut_w) ;;;
  (* Dashed safe areas *)
  dashed_rect hypot fuel (safe0 g) (DASH_LEN cfg sc) (GAP_LEN cfg sc) ACCENT dash_w ;;;
  dashed_rect hypot fuel (safe1 g) (DASH_LEN cfg sc) (GAP_LEN cfg sc) ACCENT dash_w ;;;
  (* Corner ticks *)
  corner_ticks (cut0 g) (TICK_LEN cfg sc) (TICK_W cfg sc) FG ;;;
  corner_ticks (cut1 g) (TICK_LEN cfg sc) (TICK_W cfg sc) FG ;;;
  (* Labels *)
  draw (draw_text (fx0_0 + inset, fy0_0 + inset - 14)
                  (face_label (name0 g) (wm0 g) (hm0 g)) ACCENT) ;;;
  draw (draw_text (fx0_1 + inset, fy0_1 + inset - 14)
                  (face_label (name1 g) (wm1 g) (hm1 g)) ACCENT) ;;;
  (* Seam ID *)
  (if butted g then
     let seam_mid_y := (Z.max fy0_0 fy0_1 + Z.min fy1_0 fy1_1) / 2 in
     let seam_x := fx1_0 in
     draw (draw_text (seam_x + 6, seam_mid_y - 6) seam_label FG)
   else ret tt) ;;;
  (* Metadata capture *)
  rec0 <~ lift (left_record g) ;;
  append_face rec0 ;;;
  rec1 <~ lift (right_record g) ;;
  append_face rec1 ;;;
  ret (y + cell_h g + ROW_GAP_PX cfg).

(** [for r in range(3)], threading [y]. *)
Fixpoint render_rows (fuel : nat) (rs : list nat) (y : Z) : M Z :=
  match rs with
  | [] => ret y
  | r :: rs' => y' <~ render_row fuel r y ;; render_rows fuel rs' y'
  end.

(** Lines 179-261: everything that happens once [s] is known. *)
Definition render (fuel : nat) : M unit :=
  render_rows fuel (seq 0 3) (grid_y0 cfg sc) ;;;
  draw (draw_text (grid_x0 cfg sc, grid_y0 cfg sc - 24) title FG) ;;;
  draw (draw_text (grid_x0 cfg sc, grid_y0 cfg sc - 10)
                  (subtitle (L cfg) (W cfg) (H cfg) (SAFE_INSET_MM cfg)) ACCENT).

(** Lines 183-187 with the faces the loop appended. *)
Definition metadata (fs : list json) : json :=
  JDict [ ("canvas_px", JList [JInt (CANVAS_W cfg); JInt (CANVAS_H cfg)]);
          ("scale_px_per_meter", JFloat sc);
          ("faces", JList fs) ].

(** The height [y] at which the loop enters row [r]. *)
Fixpoint row_y (r : nat) : Z :=
  match r with
  | O => grid_y0 cfg sc
  | S r' => row_y r' + cell_h (row_geom r' (row_y r')) + ROW_GAP_PX cfg
  end.

End Rows.

(** How a run of the script ends. *)
Inductive Run : Type :=
| Finished (png : list DrawOp) (meta : json)
| Crashed (e : exn) (png : list DrawOp)
| Unfinished.

(** The whole script.  The scale is computed before the image exists, so
    an exception there leaves nothing drawn. *)
Definition run (hypot : Q -> Q -> Q) (fuel : nat) (cfg : Config) : Run :=
  match s cfg with
  | Err e => Crashed e []
  | Ok sc =>
      match render cfg sc hypot fuel (mkWorld [] []) with
      | Done _ w => Finished (drawn w) (metadata cfg sc (meta_faces w))
      | Raised e w => Crashed e (drawn w)
      | OutOfFuel => Unfinished
      end
  end.

(** [math.hypot] on the axis-parallel edges that [dashed_rect] passes: one
    of the two differences is zero and the length is the absolute value of
    the other. *)
Definition hypot_axis (dx dy : Q) : Q := (Qabs dx + Qabs dy)%Q.

(* ====================================================================== *)
(** ** Vocabulary of the statements *)
(* ====================================================================== *)

Definition rx0 (r : rect) : Z := let '(x0, _, _, _) := r in x0.
Definition ry0 (r : rect) : Z := let '(_, y0, _, _) := r in y0.
Definition rx1 (r : rect) : Z := let '(_, _, x1, _) := r in x1.
Definition ry1 (r : rect) : Z := let '(_, _, _, y1) := r in y1.

(** The six faces of a grid, row by row. *)
Definition panels (g : Grid) : list Panel :=
  [ fst (row0 g); snd (row0 g); fst (row1 g); snd (row1 g);
    fst (row2 g); snd (row2 g) ].

(** The data model's invariant on a [Panel]: both dimensions positive. *)
Definition positive_panels (g : Grid) : Prop :=
  Forall (fun p => (0 < width_m p)%Q /\ (0 < height_m p)%Q) (panels g).

(** The same configuration with every face name blanked: no row matches
    the SIDE/END convention, so every right face is centred in its cell. *)
Definition anonymous (p : Panel) : Panel := mkPanel "" (width_m p) (height_m p).

Definition without_names (cfg : Config) : Config :=
  let g := grid cfg in
  let strip (row : Panel * Panel) := (anonymous (fst row), anonymous (snd row)) in
  mkConfig (L cfg) (W cfg) (H cfg) (CANVAS_W cfg) (CANVAS_H cfg)
           (MARGIN_PX cfg) (COL_GAP_PX cfg) (ROW_GAP_PX cfg)
           (SAFE_INSET_MM cfg) (TICK_LEN_MM cfg) (TICK_THICK_MM cfg)
           (CUT_THICK_MM cfg) (DASH_LEN_MM cfg) (GAP_LEN_MM cfg)
           (mkGrid (strip (row0 g)) (strip (row1 g)) (strip (row2 g))).

(** [inner] lies strictly inside [outer] and is not empty. *)
Definition strictly_inside (inner outer : rect) : Prop :=
  rx0 outer < rx0 inner /\ rx0 inner < rx1 inner /\ rx1 inner < rx1 outer /\
  ry0 outer < ry0 inner /\ ry0 inner < ry1 inner /\ ry1 inner < ry1 outer.

(** The two faces of a row, each with its safe rectangle. *)
Definition row_faces (g : RowGeom) : list (rect * rect) :=
  [ (cut0 g, safe0 g); (cut1 g, safe1 g) ].

(** [r] is a well-formed rectangle inside [[0, CANVAS_W] x [0, CANVAS_H]]. *)
Definition within_canvas (cfg : Config) (r : rect) : Prop :=
  0 <= rx0 r /\ rx0 r <= rx1 r /\ rx1 r <= CANVAS_W cfg /\
  0 <= ry0 r /\ ry0 r <= ry1 r /\ ry1 r <= CANVAS_H cfg.

(** The shipped script with a unit box, no outer margin and a canvas of
    2091 x 4176 pixels.  All its numbers are dyadic: [s_w = 2051 / 2.0],
    [s_h = 4096 / 2.0]. *)
Definition flush : Config :=
  let l := 1%Q in
  let w := 1%Q in
  let h := (1 # 2)%Q in
  mkConfig l w h 2091 4176 0 40 40
           50 30 6 8 25 15
           (box_grid l w h).

(** [m] returns after making exactly the draw calls [ops], in any world. *)
Definition draws (m : M unit) (ops : list DrawOp) : Prop :=
  forall w, m w = Done tt (mkWorld (drawn w ++ ops) (meta_faces w)).

(** [p] lies on the closed segment from [p1] to [p2]. *)
Definition on_edge (p1 p2 p : point) : Prop :=
  exists t : Q,
    (0 <= t)%Q /\ (t <= 1)%Q /\
    (fst p == fst p1 + t * (fst p2 - fst p1))%Q /\
    (snd p == snd p1 + t * (snd p2 - snd p1))%Q.

(** [p] is the point [t] units along the edge of length [len] that runs
    from [p1] to [p2]. *)
Definition along (p1 p2 : point) (len t : Q) (p : point) : Prop :=
  (fst p == fst p1 + (t / len) * (fst p2 - fst p1))%Q /\
  (snd p == snd p1 + (t / len) * (snd p2 - snd p1))%Q.

(** [op] is dash number [k] of the edge: a line that starts
    [k * (dash_len + gap_len)] along the edge and is [dash_len] long,
    or as long as what is left of the edge if that is less. *)
Definition dash_of (p1 p2 : point) (len dash_len gap_len : Q)
           (fill : color) (width : Z) (k : nat) (op : DrawOp) : Prop :=
  exists a b : point,
    let dist := (inject_Z (Z.of_nat k) * (dash_len + gap_len))%Q in
    let seg := Py.min dash_len (len - dist)%Q in
    op = draw_line a b fill width /\
    (0 <= dist)%Q /\ (dist < len)%Q /\ (0 <= seg)%Q /\ (dist + seg <= len)%Q /\
    along p1 p2 len dist a /\ along p1 p2 len (dist + seg) b /\
    on_edge p1 p2 a /\ on_edge p1 p2 b.

(** [m] ends as [r] says, after the draw calls [ops] and after appending
    [fs] to the faces, in any world. *)
Definition finish {A} (r : result A) (w : World) : outcome A :=
  match r with
  | Ok a => Done a w
  | Err e => Raised e w
  end.

Definition does {A} (m : M A) (ops : list DrawOp) (fs : list json)
           (r : result A) : Prop :=
  forall w, m w = finish r (mkWorld (drawn w ++ ops) (meta_faces w ++ fs)).

(** [m'] behaves as [m] wherever [m] had enough fuel. *)
Definition extends {A} (m m' : M A) : Prop :=
  forall w, m w <> OutOfFuel -> m' w = m w.

(** What [rect_to_uv] returns when the canvas has no zero side. *)
Definition uv_dict (r : rect) (canvas_w canvas_h : Z) : json :=
  let '(x0, y0, x1, y1) := r in
  JDict
    [ ("px", JDict [ ("x0", JInt x0); ("y0", JInt y0);
                     ("x1", JInt x1); ("y1", JInt y1) ]);
      ("uv", JDict [ ("u0", JFloat (inject_Z x0 / inject_Z canvas_w));
                     ("v0", JFloat (inject_Z y0 / inject_Z canvas_h));
                     ("u1", JFloat (inject_Z x1 / inject_Z canvas_w));
                     ("v1", JFloat (inject_Z y1 / inject_Z canvas_h)) ]) ].

(** The two records of a row, when [rect_to_uv] returns. *)
Definition left_json (cfg : Config) (g : RowGeom) : json :=
  JDict
    [ ("name", JStr (name0 g));
      ("meters", JDict [ ("w", JFloat (wm0 g)); ("h", JFloat (hm0 g)) ]);
      ("cut_rect", uv_dict (cut0 g) (CANVAS_W cfg) (CANVAS_H cfg));
      ("safe_rect", uv_dict (safe0 g) (CANVAS_W cfg) (CANVAS_H cfg)) ].

Definition right_json (cfg : Config) (g : RowGeom) : json :=
  JDict
    [ ("name", JStr (name1 g));
      ("meters", JDict [ ("w", JFloat (wm1 g)); ("h", JFloat (hm1 g)) ]);
      ("cut_rect", uv_dict (cut1 g) (CANVAS_W cfg) (CANVAS_H cfg));
      ("safe_rect", uv_dict (safe1 g) (CANVAS_W cfg) (CANVAS_H cfg));
      ("butted_to_side_right_edge", JBool (butted g)) ].

(** The geometry of the three rows as the loop meets them. *)
Definition rows (cfg : Config) (sc : Q) : list RowGeom :=
  map (fun r => row_geom cfg sc r (row_y cfg sc r)) (seq 0 3).

(** The six records in the order of the appends. *)
Definition face_records (cfg : Config) (sc : Q) : list json :=
  flat_map (fun g => [left_json cfg g; right_json cfg g]) (rows cfg sc).

(** The keys of a [dict], in order. *)
Definition keys (j : json) : list string :=
  match j with
  | JDict kv => map fst kv
  | _ => []
  end.

(** [j] is a rectangle in both coordinate systems:
    [{"px": {x0, y0, x1, y1}, "uv": {u0, v0, u1, v1}}]. *)
Definition rect_shaped (j : json) : Prop :=
  exists (x0 y0 x1 y1 : Z) (u0 v0 u1 v1 : Q),
    j = JDict
          [ ("px", JDict [ ("x0", JInt x0); ("y0", JInt y0);
                           ("x1", JInt x1); ("y1", JInt y1) ]);
            ("uv", JDict [ ("u0", JFloat u0); ("v0", JFloat v0);
                           ("u1", JFloat u1); ("v1", JFloat v1) ]) ].

(** The normalised rectangle of [j], scaled back by the canvas size, is
    its pixel rectangle. *)
Definition uv_consistent (canvas_w canvas_h : Z) (j : json) : Prop :=
  exists (x0 y0 x1 y1 : Z) (u0 v0 u1 v1 : Q),
    j = JDict
          [ ("px", JDict [ ("x0", JInt x0); ("y0", JInt y0);
                           ("x1", JInt x1); ("y1", JInt y1) ]);
            ("uv", JDict [ ("u0", JFloat u0); ("v0", JFloat v0);
                           ("u1", JFloat u1); ("v1", JFloat v1) ]) ] /\
    (u0 * inject_Z canvas_w == inject_Z x0)%Q /\
    (v0 * inject_Z canvas_h == inject_Z y0)%Q /\
    (u1 * inject_Z canvas_w == inject_Z x1)%Q /\
    (v1 * inject_Z canvas_h == inject_Z y1)%Q /\
    (u0 == inject_Z x0 / inject_Z canvas_w)%Q /\
    (v0 == inject_Z y0 / inject_Z canvas_h)%Q /\
    (u1 == inject_Z x1 / inject_Z canvas_w)%Q /\
    (v1 == inject_Z y1 / inject_Z canvas_h)%Q.

(** The shipped script on a canvas 160 pixels wide: the margins and the
    column gap use up the whole width, [avail_w_px = 0]. *)
Definition cramped : Config :=
  let l := (122 # 10)%Q in
  let w := (3048 # 1000)%Q in
  let h := (31 # 10)%Q in
  mkConfig l w h 160 2048 60 40 40
           50 30 6 8 25 15
           (box_grid l w h).


(** What every face record holds: a name, the size in meters and the two
    rectangles. *)
Definition base_shape (f : json) : Prop :=
  exists (nm : string) (w h : Q) (c sf : json),
    lookup "name" f = Some (JStr nm) /\
    lookup "meters" f = Some (JDict [ ("w", JFloat w); ("h", JFloat h) ]) /\
    lookup "cut_rect" f = Some c /\ rect_shaped c /\
    lookup "safe_rect" f = Some sf /\ rect_shaped sf.

(** Reading the pixel rectangle back from what [rect_to_uv] returned. *)
Definition px_of (j : json) : option rect :=
  match lookup "px" j with
  | Some p =>
      match lookup "x0" p, lookup "y0" p, lookup "x1" p, lookup "y1" p with
      | Some (JInt x0), Some (JInt y0), Some (JInt x1), Some (JInt y1) =>
          Some (x0, y0, x1, y1)
      | _, _, _, _ => None
      end
  | None => None
  end.

(** The pixel rectangle under key [k] of a face record. *)
Definition px_under (k : string) (f : json) : option rect :=
  match lookup k f with
  | Some j => px_of j
  | None => None
  end.

(** [math.hypot] on axis-parallel differences: the absolute value of the
    one that is not zero. *)
Definition axis_exact (hypot : Q -> Q -> Q) : Prop :=
  forall dx dy : Q,
    ((dy == 0)%Q -> (hypot dx dy == Qabs dx)%Q) /\
    ((dx == 0)%Q -> (hypot dx dy == Qabs dy)%Q).

(** The number of dashes on an edge [len] pixels long: one per started
    period [dash_len + gap_len]. *)
Definition dashes_on (len period : Z) : nat :=
  Z.to_nat ((len + period - 1) / period).

(** [p] lies in the bounding box of the corners of [r], whichever way
    round they are. *)
Definition in_box (r : rect) (p : point) : Prop :=
  let '(x0, y0, x1, y1) := r in
  (inject_Z (Z.min x0 x1) <= fst p)%Q /\ (fst p <= inject_Z (Z.max x0 x1))%Q /\
  (inject_Z (Z.min y0 y1) <= snd p)%Q /\ (snd p <= inject_Z (Z.max y0 y1))%Q.

(** [(x, y)] is one of the four corners of [r]. *)
Definition is_corner (r : rect) (x y : Z) : Prop :=
  (x = rx0 r \/ x = rx1 r) /\ (y = ry0 r \/ y = ry1 r).

(** [(x, y)] lies on the outline of [r]. *)
Definition on_border (r : rect) (x y : Z) : Prop :=
  ((x = rx0 r \/ x = rx1 r) /\ ry0 r <= y <= ry1 r) \/
  ((y = ry0 r \/ y = ry1 r) /\ rx0 r <= x <= rx1 r).

(** The normalised rectangle of [j] is well formed and lies in the unit
    square. *)
Definition uv_in_unit_square (j : json) : Prop :=
  exists (x0 y0 x1 y1 : Z) (u0 v0 u1 v1 : Q),
    j = JDict
          [ ("px", JDict [ ("x0", JInt x0); ("y0", JInt y0);
                           ("x1", JInt x1); ("y1", JInt y1) ]);
            ("uv", JDict [ ("u0", JFloat u0); ("v0", JFloat v0);
                           ("u1", JFloat u1); ("v1", JFloat v1) ]) ] /\
    (0 <= u0)%Q /\ (u0 <= u1)%Q /\ (u1 <= 1)%Q /\
    (0 <= v0)%Q /\ (v0 <= v1)%Q /\ (v1 <= 1)%Q.

(** The shipped script on a canvas of 64 x 64 pixels with margins and
    gaps of two pixels. *)
Definition thumbnail : Config :=
  let l := (122 # 10)%Q in
  let w := (3048 # 1000)%Q in
  let h := (31 # 10)%Q in
  mkConfig l w h 64 64 2 2 2
           50 30 6 8 25 15
           (box_grid l w h).

(** The draw calls other than [draw.line]. *)
Definition not_line (op : DrawOp) : bool :=
  match op with
  | draw_line _ _ _ _ => false
  | _ => true
  end.

(** What one iteration of the row loop draws apart from lines (lines
    217-218, 233-234 and 237-240): the two outlines, the two labels and,
    in a butted row, the seam label. *)
Definition row_marks (cfg : Config) (sc : Q) (g : RowGeom) : list DrawOp :=
  let inset := SAFE_INSET cfg sc in
  [ draw_rectangle (cut0 g) FG (CUT_W cfg sc);
    draw_rectangle (cut1 g) FG (CUT_W cfg sc);
    draw_text (rx0 (cut0 g) + inset, ry0 (cut0 g) + inset - 14)
              (face_label (name0 g) (wm0 g) (hm0 g)) ACCENT;
    draw_text (rx0 (cut1 g) + inset, ry0 (cut1 g) + inset - 14)
              (face_label (name1 g) (wm1 g) (hm1 g)) ACCENT ]
  ++ (if butted g
      then [ draw_text (rx1 (cut0 g) + 6,
                        (Z.max (ry0 (cut0 g)) (ry0 (cut1 g))
                         + Z.min (ry1 (cut0 g)) (ry1 (cut1 g))) / 2 - 6)
                       seam_label FG ]
      else []).

(** The two title lines (lines 260-261). *)
Definition titles (cfg : Config) (sc : Q) : list DrawOp :=
  [ draw_text (grid_x0 cfg sc, grid_y0 cfg sc - 24) title FG;
    draw_text (grid_x0 cfg sc, grid_y0 cfg sc - 10)
              (subtitle (L cfg) (W cfg) (H cfg) (SAFE_INSET_MM cfg)) ACCENT ].

(** [m], where it returns, has only added lines to the drawing. *)
Definition lines_only (m : M unit) : Prop :=
  forall w w', m w = Done tt w' ->
    exists ops, drawn w' = drawn w ++ ops /\ filter not_line ops = [].

(** The scale as the specification words it. *)
Module Spec.

Definition maximum (l : list Q) : Q :=
  match l with
  | [] => 0%Q
  | x :: xs => fold_left Qmax xs x
  end.

Definition total (l : list Q) : Q := fold_right Qplus 0%Q l.

Definition col_extent_m (g : Grid) (c : nat) : Q :=
  maximum (map (fun r => width_m (cell g r c)) (seq 0 3)).

Definition row_extent_m (g : Grid) (r : nat) : Q :=
  maximum (map (fun c => height_m (cell g r c)) (seq 0 2)).

Definition avail_w (cfg : Config) : Z :=
  CANVAS_W cfg - 2 * MARGIN_PX cfg - (2 - 1) * COL_GAP_PX cfg.

Definition avail_h (cfg : Config) : Z :=
  CANVAS_H cfg - 2 * MARGIN_PX cfg - (3 - 1) * ROW_GAP_PX cfg.

Definition scale (cfg : Config) : Q :=
  Qmin (inject_Z (avail_w cfg) / total (map (col_extent_m (grid cfg)) (seq 0 2)))
       (inject_Z (avail_h cfg) / total (map (row_extent_m (grid cfg)) (seq 0 3))).

End Spec.

(* ====================================================================== *)
(** ** Arithmetic of the Python primitives *)
(* ====================================================================== *)

Lemma max_is_Qmax (a b : Q) : (Py.max a b == Qmax a b)%Q.
Proof.
  unfold Py.max.
  destruct (Q.max_spec a b) as [[Hlt E] | [Hle E]]; rewrite E;
    destruct (Qcompare_spec a b) as [He | Hl | Hg];
    try reflexivity; lra.
Qed.

Lemma min_is_Qmin (a b : Q) : (Py.min a b == Qmin a b)%Q.
Proof.
  unfold Py.min.
  destruct (Q.min_spec a b) as [[Hlt E] | [Hle E]]; rewrite E;
    destruct (Qcompare_spec b a) as [He | Hl | Hg];
    try reflexivity; lra.
Qed.

Lemma max_lower_l (a b : Q) : (a <= Py.max a b)%Q.
Proof. rewrite max_is_Qmax. apply Q.le_max_l. Qed.

Lemma max_lower_r (a b : Q) : (b <= Py.max a b)%Q.
Proof. rewrite max_is_Qmax. apply Q.le_max_r. Qed.

Lemma min_upper_l (a b : Q) : (Py.min a b <= a)%Q.
Proof. rewrite min_is_Qmin. apply Q.le_min_l. Qed.

Lemma min_upper_r (a b : Q) : (Py.min a b <= b)%Q.
Proof. rewrite min_is_Qmin. apply Q.le_min_r. Qed.

Lemma min_positive (a b : Q) : (0 < a)%Q -> (0 < b)%Q -> (0 < Py.min a b)%Q.
Proof.
  intros Ha Hb. unfold Py.min. destruct (b ?= a)%Q; assumption.
Qed.

(** [round] stays within half a unit of its argument. *)
Lemma round_near (x : Q) :
  (inject_Z (Py.round x) - (1 # 2) <= x)%Q /\ (x <= inject_Z (Py.round x) + (1 # 2))%Q.
Proof.
  unfold Py.round.
  pose proof (Qfloor_le x) as Hlo.
  pose proof (Qlt_floor x) as Hhi.
  rewrite inject_Z_plus in Hhi. change (inject_Z 1) with 1%Q in Hhi.
  destruct (Qcompare_spec (x - inject_Z (Qfloor x)) (1 # 2)) as [He | Hl | Hg].
  - destruct (Z.even (Qfloor x)).
    + split; lra.
    + rewrite inject_Z_plus. change (inject_Z 1) with 1%Q. split; lra.
  - split; lra.
  - rewrite inject_Z_plus. change (inject_Z 1) with 1%Q. split; lra.
Qed.

Lemma round_between_floor (x : Q) :
  Qfloor x <= Py.round x <= Qfloor x + 1.
Proof.
  unfold Py.round.
  destruct (x - inject_Z (Qfloor x) ?= 1 # 2)%Q; [destruct (Z.even _) | | ]; lia.
Qed.

(** [round] is monotone. *)
Lemma round_mono (x y : Q) : (x <= y)%Q -> Py.round x <= Py.round y.
Proof.
  intros Hxy.
  pose proof (Qfloor_resp_le x y Hxy) as Hf.
  destruct (Z.eq_dec (Qfloor x) (Qfloor y)) as [E | N].
  - unfold Py.round. rewrite E.
    destruct (Qcompare_spec (x - inject_Z (Qfloor y)) (1 # 2)) as [He | Hl | Hg];
      destruct (Qcompare_spec (y - inject_Z (Qfloor y)) (1 # 2)) as [He' | Hl' | Hg'];
      try (destruct (Z.even (Qfloor y))); try lia; lra.
  - pose proof (round_between_floor x). pose proof (round_between_floor y). lia.
Qed.

Lemma round_zero : Py.round 0 = 0.
Proof. reflexivity. Qed.

Lemma round_nonneg (x : Q) : (0 <= x)%Q -> 0 <= Py.round x.
Proof. intros Hx. rewrite <- round_zero. apply round_mono, Hx. Qed.

(** [round] does not tell apart two representations of one rational. *)
Lemma round_compat (x y : Q) : (x == y)%Q -> Py.round x = Py.round y.
Proof.
  intros E. apply Z.le_antisymm; apply round_mono; rewrite E; apply Qle_refl.
Qed.

Lemma div_ok (a b : Q) : ~ (b == 0)%Q -> Py.div a b = Ok (a / b)%Q.
Proof.
  intros Hb. unfold Py.div.
  destruct (Qeq_bool b 0) eqn:E; [ | reflexivity].
  apply Qeq_bool_eq in E. contradiction.
Qed.


(* ====================================================================== *)
(** ** The extents and the scale *)
(* ====================================================================== *)

(** The nested loop of lines 137-141, unrolled. *)
Lemma extents_unrolled (cfg : Config) :
  let g := grid cfg in
  extents cfg =
  ([ Py.max (Py.max (Py.max 0 (width_m (cell g 0 0))) (width_m (cell g 1 0)))
            (width_m (cell g 2 0));
     Py.max (Py.max (Py.max 0 (width_m (cell g 0 1))) (width_m (cell g 1 1)))
            (width_m (cell g 2 1)) ],
   [ Py.max (Py.max 0 (height_m (cell g 0 0))) (height_m (cell g 0 1));
     Py.max (Py.max 0 (height_m (cell g 1 0))) (height_m (cell g 1 1));
     Py.max (Py.max 0 (height_m (cell g 2 0))) (height_m (cell g 2 1)) ])%Q.
Proof. reflexivity. Qed.

Lemma positive_cells (g : Grid) :
  positive_panels g ->
  forall r c, (0 < width_m (cell g r c))%Q /\ (0 < height_m (cell g r c))%Q.
Proof.
  unfold positive_panels, panels. intros Hp r c.
  repeat match goal with
         | H : Forall _ (_ :: _) |- _ => inversion H; clear H; subst
         end.
  destruct r as [ | [ | r]]; destruct c as [ | c]; cbn; assumption.
Qed.

#[global] Instance max_proper : Proper (Qeq ==> Qeq ==> Qeq) Py.max.
Proof.
  intros a a' Ha b b' Hb. rewrite !max_is_Qmax. rewrite Ha, Hb. reflexivity.
Qed.

#[global] Instance min_proper : Proper (Qeq ==> Qeq ==> Qeq) Py.min.
Proof.
  intros a a' Ha b b' Hb. rewrite !min_is_Qmin. rewrite Ha, Hb. reflexivity.
Qed.

(** Seeding the running maximum with [0.0] changes nothing once one of the
    values is positive. *)
Lemma seeded_max (a : Q) : (0 < a)%Q -> (Py.max 0 a == a)%Q.
Proof.
  intros Ha. unfold Py.max. destruct (Qcompare_spec 0 a); try reflexivity; lra.
Qed.

Lemma extent_positive (a b : Q) : (0 < a)%Q -> (0 < Py.max a b)%Q.
Proof. intros Ha. pose proof (max_lower_l a b). lra. Qed.

Lemma extent_nonneg (a b : Q) : (0 <= a)%Q -> (0 <= Py.max a b)%Q.
Proof. intros Ha. pose proof (max_lower_l a b). lra. Qed.

Lemma sum_cols_unrolled (cfg : Config) :
  sum_cols_m cfg =
  (0 + Py.get 0 (cols_m cfg) 0 + Py.get 0 (cols_m cfg) 1)%Q.
Proof. reflexivity. Qed.

Lemma sum_rows_unrolled (cfg : Config) :
  sum_rows_m cfg =
  (0 + Py.get 0 (rows_m cfg) 0 + Py.get 0 (rows_m cfg) 1 + Py.get 0 (rows_m cfg) 2)%Q.
Proof. reflexivity. Qed.

(** No extent is negative, whatever the faces. *)
Lemma extents_nonneg (cfg : Config) :
  Forall (fun x => (0 <= x)%Q) (cols_m cfg) /\ Forall (fun x => (0 <= x)%Q) (rows_m cfg).
Proof.
  unfold cols_m, rows_m. rewrite extents_unrolled. cbn [fst snd].
  split; repeat apply Forall_cons; try apply Forall_nil;
    repeat apply extent_nonneg; apply Qle_refl.
Qed.


Lemma extents_positive (cfg : Config) :
  positive_panels (grid cfg) ->
  Forall (fun x => (0 < x)%Q) (cols_m cfg) /\ Forall (fun x => (0 < x)%Q) (rows_m cfg).
Proof.
  intros Hp. pose proof (positive_cells _ Hp) as Hc.
  unfold cols_m, rows_m. rewrite extents_unrolled. cbn [fst snd].
  assert (Hseed : forall a b, (0 < a)%Q -> (0 < Py.max (Py.max 0 a) b)%Q).
  { intros a b Ha. apply extent_positive. rewrite seeded_max; assumption. }
  split; repeat apply Forall_cons; try apply Forall_nil;
    first [apply Hseed | apply extent_positive; apply Hseed]; apply Hc.
Qed.

Lemma sums_positive (cfg : Config) :
  positive_panels (grid cfg) -> (0 < sum_cols_m cfg)%Q /\ (0 < sum_rows_m cfg)%Q.
Proof.
  intros Hp. destruct (extents_positive cfg Hp) as [Hc Hr].
  rewrite sum_cols_unrolled, sum_rows_unrolled.
  unfold cols_m, rows_m in *. rewrite extents_unrolled in *.
  cbn [fst snd Py.get nth cell] in *.
  repeat match goal with
         | H : Forall _ (_ :: _) |- _ => inversion H; clear H; subst
         end.
  split; lra.
Qed.

(** On positive faces the script's sums are the specification's. *)
Lemma sums_match_spec (cfg : Config) :
  positive_panels (grid cfg) ->
  (sum_cols_m cfg == Spec.total (map (Spec.col_extent_m (grid cfg)) (seq 0 2)))%Q /\
  (sum_rows_m cfg == Spec.total (map (Spec.row_extent_m (grid cfg)) (seq 0 3)))%Q.
Proof.
  intros Hp. pose proof (positive_cells _ Hp) as Hc.
  rewrite sum_cols_unrolled, sum_rows_unrolled.
  unfold cols_m, rows_m. rewrite extents_unrolled.
  cbn [fst snd Py.get nth map seq Spec.total fold_right
       Spec.col_extent_m Spec.row_extent_m Spec.maximum fold_left].
  split.
  - rewrite (seeded_max (width_m (cell (grid cfg) 0 0))) by apply Hc.
    rewrite (seeded_max (width_m (cell (grid cfg) 0 1))) by apply Hc.
    rewrite !max_is_Qmax. ring.
  - rewrite (seeded_max (height_m (cell (grid cfg) 0 0))) by apply Hc.
    rewrite (seeded_max (height_m (cell (grid cfg) 1 0))) by apply Hc.
    rewrite (seeded_max (height_m (cell (grid cfg) 2 0))) by apply Hc.
    rewrite !max_is_Qmax. ring.
Qed.

(** The pixel footprint of both faces of a row. *)
Lemma footprints (cfg : Config) (sc : Q) (r : nat) (y : Z) :
  let g := row_geom cfg sc r y in
  rx1 (cut0 g) - rx0 (cut0 g) = Py.round (width_m (cell (grid cfg) r 0) * sc) /\
  ry1 (cut0 g) - ry0 (cut0 g) = Py.round (height_m (cell (grid cfg) r 0) * sc) /\
  rx1 (cut1 g) - rx0 (cut1 g) = Py.round (width_m (cell (grid cfg) r 1) * sc) /\
  ry1 (cut1 g) - ry0 (cut1 g) = Py.round (height_m (cell (grid cfg) r 1) * sc).
Proof.
  cbn -[Z.add Z.sub Z.div Z.mul Py.round cell]. repeat split; lia.
Qed.

(** C1: the scale is the smaller of the width-fitting and the
    height-fitting candidate, each the available pixels divided by the sum
    of the column (row) maxima, and that single scale gives every face its
    pixel footprint. *)
Theorem scale_is_smaller_fit (cfg : Config) :
  positive_panels (grid cfg) ->
  exists sc,
    s cfg = Ok sc /\
    (sc == Spec.scale cfg)%Q /\
    forall r y,
      let g := row_geom cfg sc r y in
      rx1 (cut0 g) - rx0 (cut0 g) = Py.round (width_m (cell (grid cfg) r 0) * sc) /\
      ry1 (cut0 g) - ry0 (cut0 g) = Py.round (height_m (cell (grid cfg) r 0) * sc) /\
      rx1 (cut1 g) - rx0 (cut1 g) = Py.round (width_m (cell (grid cfg) r 1) * sc) /\
      ry1 (cut1 g) - ry0 (cut1 g) = Py.round (height_m (cell (grid cfg) r 1) * sc).
Proof.
  intros Hp.
  destruct (sums_positive cfg Hp) as [Hc Hr].
  destruct (sums_match_spec cfg Hp) as [Ec Er].
  exists (Py.min (inject_Z (avail_w_px cfg) / sum_cols_m cfg)
                 (inject_Z (avail_h_px cfg) / sum_rows_m cfg)).
  split; [ | split].
  - unfold s, s_w, s_h.
    rewrite !div_ok by (intros E; rewrite E in *; lra).
    reflexivity.
  - rewrite min_is_Qmin. unfold Spec.scale. rewrite <- Ec, <- Er. reflexivity.
  - intros r y. apply footprints.
Qed.

Lemma scale_is_smaller_fit_shipped :
  positive_panels (grid shipped) /\
  exists sc,
    s shipped = Ok sc /\
    (sc == Spec.scale shipped)%Q /\
    forall r y,
      let g := row_geom shipped sc r y in
      rx1 (cut0 g) - rx0 (cut0 g) = Py.round (width_m (cell (grid shipped) r 0) * sc) /\
      ry1 (cut0 g) - ry0 (cut0 g) = Py.round (height_m (cell (grid shipped) r 0) * sc) /\
      rx1 (cut1 g) - rx0 (cut1 g) = Py.round (width_m (cell (grid shipped) r 1) * sc) /\
      ry1 (cut1 g) - ry0 (cut1 g) = Py.round (height_m (cell (grid shipped) r 1) * sc).
Proof.
  assert (Hp : positive_panels (grid shipped))
    by (repeat constructor; reflexivity).
  split; [exact Hp | exact (scale_is_smaller_fit shipped Hp)].
Defined.

(** C8: every millimetre parameter becomes [max(1, round(mm/1000 * s))]
    pixels, hence at least one pixel. *)
Theorem guide_pixels_at_least_one (cfg : Config) (sc : Q) :
  (forall mm : Q,
      mm_to_px sc mm = Z.max 1 (Py.round (mm / 1000 * sc)) /\ 1 <= mm_to_px sc mm) /\
  SAFE_INSET cfg sc = mm_to_px sc (SAFE_INSET_MM cfg) /\
  TICK_LEN cfg sc = mm_to_px sc (TICK_LEN_MM cfg) /\
  TICK_W cfg sc = mm_to_px sc (TICK_THICK_MM cfg) /\
  CUT_W cfg sc = mm_to_px sc (CUT_THICK_MM cfg) /\
  DASH_LEN cfg sc = mm_to_px sc (DASH_LEN_MM cfg) /\
  GAP_LEN cfg sc = mm_to_px sc (GAP_LEN_MM cfg).
Proof.
  split; [ | repeat split].
  intros mm. split; [reflexivity | ]. unfold mm_to_px. apply Z.le_max_l.
Qed.

(* ====================================================================== *)
(** ** Placement of the faces *)
(* ====================================================================== *)

(** Blanking the names changes neither the extents nor any pixel size. *)
Lemma without_names_extents (cfg : Config) :
  extents (without_names cfg) = extents cfg.
Proof. reflexivity. Qed.

Lemma without_names_px (cfg : Config) (sc : Q) :
  cols_px (without_names cfg) sc = cols_px cfg sc /\
  rows_px (without_names cfg) sc = rows_px cfg sc /\
  grid_x0 (without_names cfg) sc = grid_x0 cfg sc.
Proof.
  assert (Hc : cols_px (without_names cfg) sc = cols_px cfg sc)
    by (unfold cols_px, cols_m; rewrite without_names_extents; reflexivity).
  assert (Hr : rows_px (without_names cfg) sc = rows_px cfg sc)
    by (unfold rows_px, rows_m; rewrite without_names_extents; reflexivity).
  split; [exact Hc | split; [exact Hr | ]].
  unfold grid_x0, grid_w_px. rewrite Hc. reflexivity.
Qed.

Lemma without_names_cell (cfg : Config) (r c : nat) :
  cell (grid (without_names cfg)) r c = anonymous (cell (grid cfg) r c).
Proof. destruct r as [ | [ | r]]; destruct c; reflexivity. Qed.

(** The geometry of a row, with the name test left as the only choice. *)
Lemma row_geom_cuts (cfg : Config) (sc : Q) (r : nat) (y : Z) :
  let g := row_geom cfg sc r y in
  let p0 := cell (grid cfg) r 0 in
  let p1 := cell (grid cfg) r 1 in
  let cw0 := Py.get 0 (cols_px cfg sc) 0 in
  let cw1 := Py.get 0 (cols_px cfg sc) 1 in
  let ch := Py.get 0 (rows_px cfg sc) r in
  let fw0 := Py.round (width_m p0 * sc) in
  let fh0 := Py.round (height_m p0 * sc) in
  let fw1 := Py.round (width_m p1 * sc) in
  let fh1 := Py.round (height_m p1 * sc) in
  let x0 := grid_x0 cfg sc + (cw0 - fw0) / 2 in
  let x1 := if butted g then x0 + fw0
            else grid_x0 cfg sc + cw0 + COL_GAP_PX cfg + (cw1 - fw1) / 2 in
  butted g = Py.startswith (name p1) "END" && Py.startswith (name p0) "SIDE" /\
  cell_h g = ch /\
  cut0 g = (x0, y + (ch - fh0) / 2, x0 + fw0, y + (ch - fh0) / 2 + fh0) /\
  cut1 g = (x1, y + (ch - fh1) / 2, x1 + fw1, y + (ch - fh1) / 2 + fh1) /\
  safe0 g = (rx0 (cut0 g) + SAFE_INSET cfg sc, ry0 (cut0 g) + SAFE_INSET cfg sc,
             rx1 (cut0 g) - SAFE_INSET cfg sc, ry1 (cut0 g) - SAFE_INSET cfg sc) /\
  safe1 g = (rx0 (cut1 g) + SAFE_INSET cfg sc, ry0 (cut1 g) + SAFE_INSET cfg sc,
             rx1 (cut1 g) - SAFE_INSET cfg sc, ry1 (cut1 g) - SAFE_INSET cfg sc).
Proof. repeat split. Qed.

(** C2: in a row whose right face is an END and whose left face is a SIDE,
    the right face starts exactly where the left face ends, and its
    vertical position is the one it has when no name matches. *)
Theorem end_butts_against_side (cfg : Config) (sc : Q) (r : nat) (y : Z) :
  Py.startswith (name (cell (grid cfg) r 1)) "END" = true ->
  Py.startswith (name (cell (grid cfg) r 0)) "SIDE" = true ->
  let g := row_geom cfg sc r y in
  let centred := row_geom (without_names cfg) sc r y in
  butted g = true /\ butted centred = false /\
  rx0 (cut1 g) = rx1 (cut0 g) /\
  ry0 (cut1 g) = ry0 (cut1 centred) /\
  ry1 (cut1 g) = ry1 (cut1 centred) /\
  rx1 (cut1 g) - rx0 (cut1 g) = rx1 (cut1 centred) - rx0 (cut1 centred) /\
  cut0 g = cut0 centred.
Proof.
  intros Hend Hside g centred.
  destruct (row_geom_cuts cfg sc r y) as (Hb & _ & Hc0 & Hc1 & _).
  destruct (row_geom_cuts (without_names cfg) sc r y) as (Hb' & _ & Hc0' & Hc1' & _).
  fold g in Hb, Hc0, Hc1. fold centred in Hb', Hc0', Hc1'.
  assert (Hbt : butted g = true) by (rewrite Hb, Hend, Hside; reflexivity).
  assert (Hbf : butted centred = false)
    by (rewrite Hb', !without_names_cell; reflexivity).
  clear Hb Hb'.
  rewrite !without_names_cell in Hc0', Hc1'.
  cbn [anonymous name width_m height_m] in Hc0', Hc1'.
  rewrite Hbt in Hc1. rewrite Hbf in Hc1'.
  rewrite ?without_names_cell in Hc1'.
  cbn [anonymous name width_m height_m] in Hc1'.
  destruct (without_names_px cfg sc) as (Ec & Er & Ex).
  rewrite Ec, Er, Ex in Hc0', Hc1'.
  change (COL_GAP_PX (without_names cfg)) with (COL_GAP_PX cfg) in Hc1'.
  rewrite Hc0, Hc1, Hc0', Hc1'. cbn [rx0 rx1 ry0 ry1].
  repeat split; try assumption; try reflexivity; lia.
Qed.

Lemma end_butts_against_side_shipped_row0 :
  Py.startswith (name (cell (grid shipped) 0 1)) "END" = true /\
  Py.startswith (name (cell (grid shipped) 0 0)) "SIDE" = true /\
  let g := row_geom shipped (188800 # 2440) 0 626 in
  let centred := row_geom (without_names shipped) (188800 # 2440) 0 626 in
  butted g = true /\ butted centred = false /\
  rx0 (cut1 g) = rx1 (cut0 g) /\
  ry0 (cut1 g) = ry0 (cut1 centred) /\
  ry1 (cut1 g) = ry1 (cut1 centred) /\
  rx1 (cut1 g) - rx0 (cut1 g) = rx1 (cut1 centred) - rx0 (cut1 centred) /\
  cut0 g = cut0 centred.
Proof.
  split; [reflexivity | split; [reflexivity | ]].
  exact (end_butts_against_side shipped (188800 # 2440) 0 626 eq_refl eq_refl).
Defined.

(** C6: a face that is more than two insets wide and high has its safe
    rectangle strictly inside its cut rectangle. *)
Theorem safe_rect_strictly_inside (cfg : Config) (sc : Q) (r : nat) (y : Z)
        (cut safe : rect) :
  In (cut, safe) (row_faces (row_geom cfg sc r y)) ->
  2 * SAFE_INSET cfg sc < Z.min (rx1 cut - rx0 cut) (ry1 cut - ry0 cut) ->
  strictly_inside safe cut.
Proof.
  intros Hin Hroom.
  assert (Hone : 1 <= SAFE_INSET cfg sc) by apply Z.le_max_l.
  destruct (row_geom_cuts cfg sc r y) as (_ & _ & _ & _ & Hs0 & Hs1).
  unfold row_faces in Hin. cbn [In] in Hin.
  destruct Hin as [E | [E | []]]; apply pair_equal_spec in E; destruct E as [<- <-];
    [rewrite Hs0 | rewrite Hs1];
    destruct (cut0 (row_geom cfg sc r y)) as [[[a b] c] d];
    destruct (cut1 (row_geom cfg sc r y)) as [[[a' b'] c'] d'];
    unfold strictly_inside; cbn [rx0 rx1 ry0 ry1] in *; lia.
Qed.

Lemma safe_rect_strictly_inside_shipped :
  let g := row_geom shipped (188800 # 2440) 0 626 in
  strictly_inside (safe0 g) (cut0 g) /\ strictly_inside (safe1 g) (cut1 g).
Proof.
  split.
  - apply (safe_rect_strictly_inside shipped (188800 # 2440) 0 626).
    + left. reflexivity.
    + vm_compute. reflexivity.
  - apply (safe_rect_strictly_inside shipped (188800 # 2440) 0 626).
    + right. left. reflexivity.
    + vm_compute. reflexivity.
Defined.

(* ====================================================================== *)
(** ** The grid inside the canvas *)
(* ====================================================================== *)

Lemma round_sum2 (a b : Q) (n : Z) :
  (a + b <= inject_Z n)%Q -> Py.round a + Py.round b <= n + 1.
Proof.
  intros Hab.
  destruct (round_near a) as [Ha _]. destruct (round_near b) as [Hb _].
  rewrite Zle_Qle. rewrite !inject_Z_plus. change (inject_Z 1) with 1%Q. lra.
Qed.

Lemma round_sum3 (a b c : Q) (n : Z) :
  (a + b + c <= inject_Z n)%Q -> Py.round a + Py.round b + Py.round c <= n + 1.
Proof.
  intros Habc.
  destruct (round_near a) as [Ha _]. destruct (round_near b) as [Hb _].
  destruct (round_near c) as [Hc _].
  destruct (Z.le_gt_cases (Py.round a + Py.round b + Py.round c) (n + 1)) as [Hle | Hgt];
    [exact Hle | exfalso].
  assert (Hge : n + 2 <= Py.round a + Py.round b + Py.round c) by lia.
  rewrite Zle_Qle in Hge. rewrite !inject_Z_plus in Hge.
  change (inject_Z 2) with 2%Q in Hge. lra.
Qed.

(** What the choice of the scale guarantees. *)
Lemma scale_fits (cfg : Config) (sc : Q) :
  positive_panels (grid cfg) ->
  0 < avail_w_px cfg -> 0 < avail_h_px cfg ->
  s cfg = Ok sc ->
  (0 < sc)%Q /\
  (sum_cols_m cfg * sc <= inject_Z (avail_w_px cfg))%Q /\
  (sum_rows_m cfg * sc <= inject_Z (avail_h_px cfg))%Q.
Proof.
  intros Hp Hw Hh Hs.
  destruct (sums_positive cfg Hp) as [Hc Hr].
  unfold s, s_w, s_h in Hs.
  rewrite !div_ok in Hs by (intros E; rewrite E in *; lra).
  cbn [rbind] in Hs. injection Hs as <-.
  set (aw := inject_Z (avail_w_px cfg)). set (ah := inject_Z (avail_h_px cfg)).
  assert (Haw : (0 < aw)%Q)
    by (unfold aw; change 0%Q with (inject_Z 0); rewrite <- Zlt_Qlt; exact Hw).
  assert (Hah : (0 < ah)%Q)
    by (unfold ah; change 0%Q with (inject_Z 0); rewrite <- Zlt_Qlt; exact Hh).
  assert (Hsw : (0 < aw / sum_cols_m cfg)%Q) by (apply Qlt_shift_div_l; lra).
  assert (Hsh : (0 < ah / sum_rows_m cfg)%Q) by (apply Qlt_shift_div_l; lra).
  split; [apply min_positive; assumption | ].
  split.
  - apply Qle_trans with (sum_cols_m cfg * (aw / sum_cols_m cfg))%Q.
    + apply Qmult_le_l; [exact Hc | apply min_upper_l].
    + rewrite Qmult_div_r by lra. apply Qle_refl.
  - apply Qle_trans with (sum_rows_m cfg * (ah / sum_rows_m cfg))%Q.
    + apply Qmult_le_l; [exact Hr | apply min_upper_r].
    + rewrite Qmult_div_r by lra. apply Qle_refl.
Qed.

(** No face is larger than the extent of its column and of its row. *)
Lemma face_within_extents (cfg : Config) (r c : nat) :
  (r < 3)%nat -> (c < 2)%nat ->
  (width_m (cell (grid cfg) r c) <= Py.get 0 (cols_m cfg) c)%Q /\
  (height_m (cell (grid cfg) r c) <= Py.get 0 (rows_m cfg) r)%Q.
Proof.
  intros Hr Hc. unfold cols_m, rows_m. rewrite extents_unrolled.
  destruct r as [ | [ | [ | r]]]; try lia;
    destruct c as [ | [ | c]]; try lia;
    cbn [fst snd Py.get nth]; split;
    repeat first [ apply max_lower_r
                 | eapply Qle_trans; [ | apply max_lower_l ] ].
Qed.

(** Pixel sizes of the cells and of the faces in them. *)
Lemma px_sizes (cfg : Config) (sc : Q) :
  cols_px cfg sc = [ Py.round (Py.get 0%Q (cols_m cfg) 0 * sc);
                     Py.round (Py.get 0%Q (cols_m cfg) 1 * sc) ] /\
  rows_px cfg sc = [ Py.round (Py.get 0%Q (rows_m cfg) 0 * sc);
                     Py.round (Py.get 0%Q (rows_m cfg) 1 * sc);
                     Py.round (Py.get 0%Q (rows_m cfg) 2 * sc) ].
Proof. split; reflexivity. Qed.

Lemma face_px_within_cell (cfg : Config) (sc : Q) (r c : nat) :
  (0 <= sc)%Q -> (r < 3)%nat -> (c < 2)%nat ->
  Py.round (width_m (cell (grid cfg) r c) * sc) <= Py.get 0 (cols_px cfg sc) c /\
  Py.round (height_m (cell (grid cfg) r c) * sc) <= Py.get 0 (rows_px cfg sc) r.
Proof.
  intros Hsc Hr Hc.
  destruct (face_within_extents cfg r c Hr Hc) as [Hw Hh].
  destruct (px_sizes cfg sc) as [-> ->].
  destruct r as [ | [ | [ | r]]]; try lia;
    destruct c as [ | [ | c]]; try lia;
    cbn [Py.get nth]; split; apply round_mono; apply Qmult_le_compat_r; assumption.
Qed.

(** The cells are not negative and overshoot the available pixels by at
    most one, the rounding of their sizes. *)
Lemma grid_fits (cfg : Config) (sc : Q) :
  positive_panels (grid cfg) ->
  0 < avail_w_px cfg -> 0 < avail_h_px cfg ->
  s cfg = Ok sc ->
  let cw0 := Py.get 0 (cols_px cfg sc) 0 in
  let cw1 := Py.get 0 (cols_px cfg sc) 1 in
  let rh0 := Py.get 0 (rows_px cfg sc) 0 in
  let rh1 := Py.get 0 (rows_px cfg sc) 1 in
  let rh2 := Py.get 0 (rows_px cfg sc) 2 in
  0 <= cw0 /\ 0 <= cw1 /\ 0 <= rh0 /\ 0 <= rh1 /\ 0 <= rh2 /\
  cw0 + cw1 <= avail_w_px cfg + 1 /\
  rh0 + rh1 + rh2 <= avail_h_px cfg + 1 /\
  grid_w_px cfg sc = cw0 + cw1 + COL_GAP_PX cfg /\
  grid_h_px cfg sc = rh0 + rh1 + rh2 + 2 * ROW_GAP_PX cfg.
Proof.
  intros Hp Hw Hh Hs.
  destruct (scale_fits cfg sc Hp Hw Hh Hs) as (Hsc & Hfw & Hfh).
  destruct (extents_positive cfg Hp) as [Hc Hr].
  rewrite sum_cols_unrolled in Hfw. rewrite sum_rows_unrolled in Hfh.
  unfold grid_w_px, grid_h_px.
  destruct (px_sizes cfg sc) as [-> ->].
  cbn [Py.get nth Py.isum fold_left List.length] in *.
  assert (Hc0 : (0 < nth 0 (cols_m cfg) 0)%Q)
    by (unfold cols_m; rewrite extents_unrolled;
        unfold cols_m in Hc; rewrite extents_unrolled in Hc; cbn [fst nth] in *;
        inversion Hc; assumption).
  set (c0 := nth 0 (cols_m cfg) 0%Q) in *.
  set (c1 := nth 1 (cols_m cfg) 0%Q) in *.
  set (r0 := nth 0 (rows_m cfg) 0%Q) in *.
  set (r1 := nth 1 (rows_m cfg) 0%Q) in *.
  set (r2 := nth 2 (rows_m cfg) 0%Q) in *.
  assert (Hpos : (0 <= c0 /\ 0 <= c1 /\ 0 <= r0 /\ 0 <= r1 /\ 0 <= r2)%Q).
  { destruct (extents_nonneg cfg) as [Nc Nr].
    subst c0 c1 r0 r1 r2. unfold cols_m, rows_m in *.
    rewrite extents_unrolled in *. cbn [fst snd nth] in *.
    repeat match goal with
           | H : Forall _ (_ :: _) |- _ => inversion H; clear H; subst
           end.
    repeat split; assumption. }
  destruct Hpos as (P0 & P1 & P2 & P3 & P4).
  assert (Hmul : forall x, (0 <= x)%Q -> (0 <= x * sc)%Q)
    by (intros x Hx; apply Qmult_le_0_compat; lra).
  repeat split; try (apply round_nonneg, Hmul; assumption).
  - apply round_sum2. lra.
  - apply round_sum3. lra.
Qed.

Lemma row_y_values (cfg : Config) (sc : Q) :
  row_y cfg sc 0 = grid_y0 cfg sc /\
  row_y cfg sc 1 = grid_y0 cfg sc + Py.get 0 (rows_px cfg sc) 0 + ROW_GAP_PX cfg /\
  row_y cfg sc 2 = grid_y0 cfg sc + Py.get 0 (rows_px cfg sc) 0 + ROW_GAP_PX cfg
                   + Py.get 0 (rows_px cfg sc) 1 + ROW_GAP_PX cfg.
Proof. repeat split. Qed.

(** C5, amended: with an outer margin of at least one pixel and gaps that
    are not negative, every cut rectangle of a valid configuration lies
    within the canvas, butted or centred. *)
Theorem cuts_within_canvas (cfg : Config) (sc : Q) (r : nat) :
  positive_panels (grid cfg) ->
  0 < avail_w_px cfg -> 0 < avail_h_px cfg ->
  1 <= MARGIN_PX cfg -> 0 <= COL_GAP_PX cfg -> 0 <= ROW_GAP_PX cfg ->
  s cfg = Ok sc ->
  (r < 3)%nat ->
  let g := row_geom cfg sc r (row_y cfg sc r) in
  within_canvas cfg (cut0 g) /\ within_canvas cfg (cut1 g).
Proof.
  intros Hp Hw Hh Hm Hcg Hrg Hs Hr g.
  destruct (scale_fits cfg sc Hp Hw Hh Hs) as (Hsc & _ & _).
  assert (Hsc' : (0 <= sc)%Q) by lra.
  destruct (grid_fits cfg sc Hp Hw Hh Hs)
    as (C0 & C1 & R0 & R1 & R2 & Hcs & Hrs & Hgw & Hgh).
  destruct (face_px_within_cell cfg sc r 0 Hsc' Hr ltac:(lia)) as [Fw0 Fh0].
  destruct (face_px_within_cell cfg sc r 1 Hsc' Hr ltac:(lia)) as [Fw1 Fh1].
  assert (Hnn : forall c, 0 <= Py.round (width_m (cell (grid cfg) r c) * sc) /\
                          0 <= Py.round (height_m (cell (grid cfg) r c) * sc)).
  { intros c. destruct (positive_cells _ Hp r c) as [Pw Ph].
    split; apply round_nonneg; apply Qmult_le_0_compat; lra. }
  destruct (Hnn 0%nat) as [Nw0 Nh0]. destruct (Hnn 1%nat) as [Nw1 Nh1]. clear Hnn.
  destruct (row_geom_cuts cfg sc r (row_y cfg sc r)) as (_ & _ & Hc0 & Hc1 & _).
  fold g in Hc0, Hc1.
  destruct (row_y_values cfg sc) as (Y0 & Y1 & Y2).
  assert (Hx : grid_x0 cfg sc = (CANVAS_W cfg - grid_w_px cfg sc) / 2) by reflexivity.
  assert (Hy : grid_y0 cfg sc = (CANVAS_H cfg - grid_h_px cfg sc) / 2) by reflexivity.
  unfold avail_w_px in Hcs. unfold avail_h_px in Hrs.
  rewrite Hgw in Hx. rewrite Hgh in Hy.
  rewrite Hc0, Hc1. unfold within_canvas. cbn [rx0 rx1 ry0 ry1].
  generalize dependent (grid_x0 cfg sc). generalize dependent (grid_y0 cfg sc).
  intros gy Y0 Y1 Y2 Hy gx Hx.
  destruct (butted g);
    destruct r as [ | [ | [ | r]]]; try lia;
    [rewrite Y0 | rewrite Y1 | rewrite Y2 | rewrite Y0 | rewrite Y1 | rewrite Y2];
    Z.to_euclidean_division_equations; lia.
Qed.

Lemma cuts_within_canvas_shipped :
  let g := row_geom shipped (188800 # 2440) 0 (row_y shipped (188800 # 2440) 0) in
  within_canvas shipped (cut0 g) /\ within_canvas shipped (cut1 g).
Proof.
  apply (cuts_within_canvas shipped (188800 # 2440) 0).
  - repeat constructor; reflexivity.
  - reflexivity.
  - reflexivity.
  - vm_compute. discriminate.
  - vm_compute. discriminate.
  - vm_compute. discriminate.
  - vm_compute. reflexivity.
  - lia.
Defined.

(** C5 as stated fails: without an outer margin the two columns can both
    round up and the left faces start one pixel left of the canvas. *)
Lemma margin_free_cut_leaves_canvas :
  positive_panels (grid flush) /\
  0 < avail_w_px flush /\ 0 < avail_h_px flush /\
  s flush = Ok (2051 # 2)%Q /\
  cut0 (row_geom flush (2051 # 2) 0 (row_y flush (2051 # 2) 0)) = (-1, 1022, 1025, 1535) /\
  ~ within_canvas flush (cut0 (row_geom flush (2051 # 2) 0 (row_y flush (2051 # 2) 0))).
Proof.
  split; [repeat constructor; reflexivity | ].
  split; [reflexivity | ].
  split; [reflexivity | ].
  split; [vm_compute; reflexivity | ].
  split; [vm_compute; reflexivity | ].
  intros (Hx & _). vm_compute in Hx. apply Hx. reflexivity.
Qed.

(* ====================================================================== *)
(** ** Draw-only computations *)
(* ====================================================================== *)

Lemma draws_ret : draws (ret tt) [].
Proof. intros w. unfold ret. rewrite app_nil_r. destruct w; reflexivity. Qed.

Lemma draws_draw (op : DrawOp) : draws (draw op) [op].
Proof. intros w. reflexivity. Qed.

Lemma draws_bind (m1 m2 : M unit) (o1 o2 : list DrawOp) :
  draws m1 o1 -> draws m2 o2 -> draws (bind m1 (fun _ => m2)) (o1 ++ o2).
Proof.
  intros H1 H2 w. unfold bind. rewrite H1, H2. cbn [drawn meta_faces].
  rewrite app_assoc. reflexivity.
Qed.

Lemma draws_cons (op : DrawOp) (m : M unit) (ops : list DrawOp) :
  draws m ops -> draws (bind (draw op) (fun _ => m)) (op :: ops).
Proof. intros Hm. apply (draws_bind _ _ [op] ops (draws_draw op) Hm). Qed.

Lemma Qltb_lt (a b : Q) : Qltb a b = true <-> (a < b)%Q.
Proof.
  unfold Qltb. destruct (Qcompare_spec a b); split; intros; try discriminate;
    try reflexivity; lra.
Qed.

Lemma Qltb_ge (a b : Q) : Qltb a b = false <-> (b <= a)%Q.
Proof.
  unfold Qltb. destruct (Qcompare_spec a b); split; intros; try discriminate;
    try reflexivity; lra.
Qed.

(* ====================================================================== *)
(** ** The dashed line *)
(* ====================================================================== *)

Lemma dashed_loop_unfold (fuel : nat) (x1 y1 ux uy len dash_len gap_len : Q)
      (fill : color) (width : Z) (dist : Q) :
  dashed_loop fuel x1 y1 ux uy len dash_len gap_len fill width dist =
  if Qltb dist len then
    match fuel with
    | O => fun _ => OutOfFuel
    | S fuel' =>
        let seg := Py.min dash_len (len - dist)%Q in
        bind (draw (draw_line (x1 + ux * dist, y1 + uy * dist)%Q
                              (x1 + ux * (dist + seg), y1 + uy * (dist + seg))%Q
                              fill width))
             (fun _ => dashed_loop fuel' x1 y1 ux uy len dash_len gap_len fill width
                                   (dist + (dash_len + gap_len))%Q)
    end
  else ret tt.
Proof. destruct fuel; reflexivity. Qed.

Section Dashes.

Variables p1 p2 : point.
Variables len dash_len gap_len : Q.
Variable fill : color.
Variable width : Z.

Hypothesis len_positive : (0 < len)%Q.
Hypothesis dash_nonneg : (0 <= dash_len)%Q.
Hypothesis period_positive : (0 < dash_len + gap_len)%Q.

Let ux : Q := ((fst p2 - fst p1) / len)%Q.
Let uy : Q := ((snd p2 - snd p1) / len)%Q.

Lemma along_on_edge (t : Q) (p : point) :
  (0 <= t)%Q -> (t <= len)%Q -> along p1 p2 len t p -> on_edge p1 p2 p.
Proof.
  intros H0 H1 [Hx Hy]. exists (t / len)%Q.
  split; [ | split; [ | split; assumption]].
  - apply Qle_shift_div_l; lra.
  - apply Qle_shift_div_r; lra.
Qed.

Lemma loop_point (dist t : Q) :
  (dist == t)%Q ->
  along p1 p2 len t (fst p1 + ux * dist, snd p1 + uy * dist)%Q.
Proof.
  intros E. unfold along, ux, uy. cbn [fst snd]. rewrite E.
  split; field; lra.
Qed.

(** Entered [k] periods along the edge with enough fuel for what is
    left, the loop returns and has drawn dashes [k], [k+1], ... *)
Lemma dashed_loop_draws (n : nat) :
  forall (k : nat) (dist : Q) (fuel : nat),
    (dist == inject_Z (Z.of_nat k) * (dash_len + gap_len))%Q ->
    (len - dist <= inject_Z (Z.of_nat n) * (dash_len + gap_len))%Q ->
    (n <= fuel)%nat ->
    exists ops,
      draws (dashed_loop fuel (fst p1) (snd p1) ux uy len dash_len gap_len
                         fill width dist) ops /\
      forall i op, nth_error ops i = Some op ->
                   dash_of p1 p2 len dash_len gap_len fill width (k + i) op.
Proof.
  induction n as [ | n IH]; intros k dist fuel Hk Hleft Hfuel;
    rewrite dashed_loop_unfold.
  - assert (Hdone : Qltb dist len = false).
    { apply Qltb_ge. change (inject_Z (Z.of_nat 0)) with 0%Q in Hleft. lra. }
    rewrite Hdone. exists []. split; [apply draws_ret | ].
    intros [ | i] op Hop; discriminate.
  - destruct (Qltb dist len) eqn:Hgo.
    2:{ exists []. split; [apply draws_ret | ].
        intros [ | i] op Hop; discriminate. }
    apply Qltb_lt in Hgo.
    destruct fuel as [ | fuel]; [lia | ].
    assert (Hk' : (dist + (dash_len + gap_len) ==
                   inject_Z (Z.of_nat (S k)) * (dash_len + gap_len))%Q).
    { rewrite Nat2Z.inj_succ. unfold Z.succ. rewrite inject_Z_plus.
      change (inject_Z 1) with 1%Q. rewrite Hk. ring. }
    assert (Hleft' : (len - (dist + (dash_len + gap_len)) <=
                      inject_Z (Z.of_nat n) * (dash_len + gap_len))%Q).
    { rewrite Nat2Z.inj_succ in Hleft. unfold Z.succ in Hleft.
      rewrite inject_Z_plus in Hleft. change (inject_Z 1) with 1%Q in Hleft.
      lra. }
    destruct (IH (S k) _ fuel Hk' Hleft' ltac:(lia)) as (ops & Hops & Hdashes).
    eexists. split; [apply draws_cons, Hops | ].
    intros [ | i] op Hop; cbn [nth_error] in Hop.
    + injection Hop as <-. rewrite Nat.add_0_r.
      set (dk := (inject_Z (Z.of_nat k) * (dash_len + gap_len))%Q) in *.
      assert (Hseg : (Py.min dash_len (len - dist) == Py.min dash_len (len - dk))%Q)
        by (rewrite Hk; reflexivity).
      assert (Hseg0 : (0 <= Py.min dash_len (len - dk))%Q).
      { unfold Py.min. destruct (len - dk ?= dash_len)%Q; lra. }
      assert (Hseg1 : (Py.min dash_len (len - dk) <= len - dk)%Q)
        by apply min_upper_r.
      assert (Hd0 : (0 <= dk)%Q).
      { unfold dk. apply Qmult_le_0_compat; [ | lra].
        change 0%Q with (inject_Z 0). rewrite <- Zle_Qle. lia. }
      assert (Ha : along p1 p2 len dk (fst p1 + ux * dist, snd p1 + uy * dist)%Q)
        by (apply loop_point; exact Hk).
      assert (Hb : along p1 p2 len (dk + Py.min dash_len (len - dk))
                         (fst p1 + ux * (dist + Py.min dash_len (len - dist)),
                          snd p1 + uy * (dist + Py.min dash_len (len - dist)))%Q)
        by (apply loop_point; rewrite Hseg, Hk; reflexivity).
      eexists _, _. cbn zeta. fold dk.
      split; [reflexivity | ].
      split; [exact Hd0 | ].
      split; [lra | ].
      split; [exact Hseg0 | ].
      split; [lra | ].
      split; [exact Ha | ].
      split; [exact Hb | ].
      split.
      * apply along_on_edge with dk; [lra | lra | exact Ha].
      * apply along_on_edge with (dk + Py.min dash_len (len - dk))%Q;
          [lra | lra | exact Hb].
    + replace (k + S i)%nat with (S k + i)%nat by lia. apply Hdashes, Hop.
Qed.

(** Fuel that is enough for the whole edge. *)
Lemma enough_fuel :
  (len - 0 <= inject_Z (Z.of_nat (Z.to_nat (Qceiling (len / (dash_len + gap_len)))))
              * (dash_len + gap_len))%Q.
Proof.
  set (P := (dash_len + gap_len)%Q) in *.
  assert (Hq : (0 <= len / P)%Q) by (apply Qle_shift_div_l; lra).
  pose proof (Qceiling_resp_le _ _ Hq) as Hc. change (Qceiling 0) with 0 in Hc.
  rewrite Z2Nat.id by exact Hc.
  pose proof (Qle_ceiling (len / P)) as Hup.
  assert (E : (len == len / P * P)%Q) by (field; lra).
  assert (Hm : (len / P * P <= inject_Z (Qceiling (len / P)) * P)%Q)
    by (apply Qmult_le_compat_r; lra).
  lra.
Qed.

End Dashes.

(** Given enough fuel, [dashed_line] returns after drawing only. *)
Lemma dashed_line_returns (hypot : Q -> Q -> Q) (p1 p2 : point)
      (dash_len gap_len : Q) (fill : color) (width : Z) :
  (0 <= dash_len)%Q ->
  (0 < dash_len + gap_len)%Q ->
  exists n, forall fuel, (n <= fuel)%nat ->
    exists ops, draws (dashed_line hypot fuel p1 p2 dash_len gap_len fill width) ops.
Proof.
  intros Hdash Hperiod.
  destruct p1 as [x1 y1], p2 as [x2 y2]. unfold dashed_line.
  set (len := hypot (x2 - x1)%Q (y2 - y1)%Q).
  destruct (Qle_bool len 0) eqn:Hlen.
  - exists 0%nat. intros fuel _. exists []. apply draws_ret.
  - assert (Hpos : (0 < len)%Q).
    { apply Qnot_le_lt. intros Hle. apply Qle_bool_iff in Hle. congruence. }
    set (n := Z.to_nat (Qceiling (len / (dash_len + gap_len)))).
    exists n. intros fuel Hfuel.
    destruct (dashed_loop_draws (x1, y1) (x2, y2) len dash_len gap_len fill width
                                Hpos Hdash Hperiod n 0%nat 0%Q fuel) as (ops & Hops & _).
    + change (inject_Z (Z.of_nat 0)) with 0%Q. ring.
    + apply enough_fuel; assumption.
    + exact Hfuel.
    + exists ops. exact Hops.
Qed.

(** C9: with a dash length that is not negative and a positive period,
    [dashed_line] returns, and the lines it draws are the dashes number
    0, 1, 2, ... of the edge: dash [k] starts [k] periods from the first
    endpoint, is [min(dash_len, length - dist)] long, and both its ends lie
    on the edge, so none reaches beyond the second endpoint. *)
Theorem dashes_stay_on_edge (hypot : Q -> Q -> Q) (p1 p2 : point)
        (dash_len gap_len : Q) (fill : color) (width : Z) :
  (0 <= dash_len)%Q ->
  (0 < dash_len + gap_len)%Q ->
  let len := hypot (fst p2 - fst p1)%Q (snd p2 - snd p1)%Q in
  exists n, forall fuel, (n <= fuel)%nat ->
    exists ops,
      draws (dashed_line hypot fuel p1 p2 dash_len gap_len fill width) ops /\
      forall i op, nth_error ops i = Some op ->
                   dash_of p1 p2 len dash_len gap_len fill width i op.
Proof.
  intros Hdash Hperiod len.
  destruct p1 as [x1 y1], p2 as [x2 y2]. cbn [fst snd] in len.
  unfold dashed_line. fold len.
  destruct (Qle_bool len 0) eqn:Hlen.
  - exists 0%nat. intros fuel _. exists []. split; [apply draws_ret | ].
    intros [ | i] op Hop; discriminate.
  - assert (Hpos : (0 < len)%Q).
    { apply Qnot_le_lt. intros Hle. apply Qle_bool_iff in Hle. congruence. }
    set (n := Z.to_nat (Qceiling (len / (dash_len + gap_len)))).
    exists n. intros fuel Hfuel.
    apply (dashed_loop_draws (x1, y1) (x2, y2) len dash_len gap_len fill width
                             Hpos Hdash Hperiod n 0%nat 0%Q fuel).
    + change (inject_Z (Z.of_nat 0)) with 0%Q. ring.
    + apply enough_fuel; assumption.
    + exact Hfuel.
Qed.


Lemma dashes_stay_on_edge_ten_pixels :
  (0 <= 3)%Q /\ (0 < 3 + 1)%Q /\
  exists n, forall fuel, (n <= fuel)%nat ->
    exists ops,
      draws (dashed_line hypot_axis fuel (0, 0)%Q (10, 0)%Q 3 1 ACCENT 1) ops /\
      forall i op, nth_error ops i = Some op ->
                   dash_of (0, 0)%Q (10, 0)%Q (hypot_axis (10 - 0) (0 - 0)) 3 1 ACCENT 1 i op.
Proof.
  assert (H3 : (0 <= 3)%Q) by (vm_compute; discriminate).
  assert (H4 : (0 < 3 + 1)%Q) by reflexivity.
  split; [exact H3 | split; [exact H4 | ]].
  exact (dashes_stay_on_edge hypot_axis (0, 0)%Q (10, 0)%Q 3 1 ACCENT 1 H3 H4).
Defined.

(** The edge of ten pixels with dashes of three and gaps of one: the last
    dash is cut to the two pixels that are left. *)
Example dashed_line_ten_pixels :
  dashed_line hypot_axis 3 (0, 0)%Q (10, 0)%Q 3 1 ACCENT 1 (mkWorld [] []) =
  Done tt (mkWorld [ draw_line (0 # 10, 0 # 10)%Q (30 # 10, 0 # 10)%Q ACCENT 1;
                     draw_line (40 # 10, 0 # 10)%Q (70 # 10, 0 # 10)%Q ACCENT 1;
                     draw_line (80 # 10, 0 # 10)%Q (100 # 10, 0 # 10)%Q ACCENT 1 ] []).
Proof. vm_compute. reflexivity. Qed.

(* ====================================================================== *)
(** ** Running the render loop *)
(* ====================================================================== *)

Lemma draws_does (m : M unit) (ops : list DrawOp) :
  draws m ops -> does m ops [] (Ok tt).
Proof. intros H w. rewrite H, app_nil_r. reflexivity. Qed.

Lemma does_draw (op : DrawOp) : does (draw op) [op] [] (Ok tt).
Proof. apply draws_does, draws_draw. Qed.

Lemma does_ret {A} (a : A) : does (ret a) [] [] (Ok a).
Proof. intros w. unfold ret. rewrite !app_nil_r. destruct w; reflexivity. Qed.

Lemma does_lift {A} (r : result A) : does (lift r) [] [] r.
Proof.
  intros w. unfold lift. rewrite !app_nil_r. destruct w, r; reflexivity.
Qed.

Lemma does_append (j : json) : does (append_face j) [] [j] (Ok tt).
Proof. intros w. unfold append_face. rewrite app_nil_r. reflexivity. Qed.

Lemma does_bind {A B} (m : M A) (k : A -> M B) (a : A)
      (o1 o2 : list DrawOp) (f1 f2 : list json) (r : result B) :
  does m o1 f1 (Ok a) -> does (k a) o2 f2 r ->
  does (bind m k) (o1 ++ o2) (f1 ++ f2) r.
Proof.
  intros H1 H2 w. unfold bind. rewrite H1. cbn [finish]. rewrite H2.
  cbn [drawn meta_faces]. rewrite !app_assoc. reflexivity.
Qed.

Lemma does_bind_raise {A B} (m : M A) (k : A -> M B) (e : exn)
      (o1 : list DrawOp) (f1 : list json) :
  does m o1 f1 (Err e) -> does (bind m k) o1 f1 (Err e).
Proof. intros H1 w. unfold bind. rewrite H1. reflexivity. Qed.

Lemma extends_refl {A} (m : M A) : extends m m.
Proof. intros w _. reflexivity. Qed.

Lemma extends_bind {A B} (m m' : M A) (k k' : A -> M B) :
  extends m m' -> (forall a, extends (k a) (k' a)) ->
  extends (bind m k) (bind m' k').
Proof.
  intros Hm Hk w Hrun. unfold bind in *.
  destruct (m w) as [a w1 | e w1 | ] eqn:E.
  - rewrite Hm by congruence. rewrite E. apply Hk, Hrun.
  - rewrite Hm by congruence. rewrite E. reflexivity.
  - contradiction.
Qed.

(** More fuel does not change a run that had enough. *)
Lemma dashed_loop_extends (x1 y1 ux uy len dash_len gap_len : Q)
      (fill : color) (width : Z) (fuel fuel' : nat) :
  (fuel <= fuel')%nat ->
  forall dist,
    extends (dashed_loop fuel x1 y1 ux uy len dash_len gap_len fill width dist)
            (dashed_loop fuel' x1 y1 ux uy len dash_len gap_len fill width dist).
Proof.
  revert fuel'. induction fuel as [ | fuel IH]; intros fuel' Hle dist;
    rewrite (dashed_loop_unfold fuel'); [rewrite (dashed_loop_unfold 0)
                                        | rewrite (dashed_loop_unfold (S fuel))].
  - destruct (Qltb dist len); [ | apply extends_refl].
    intros w Hrun. contradiction.
  - destruct (Qltb dist len); [ | apply extends_refl].
    destruct fuel' as [ | fuel']; [lia | ].
    apply extends_bind; [apply extends_refl | intros _].
    apply IH. lia.
Qed.

Lemma dashed_line_extends (hypot : Q -> Q -> Q) (p1 p2 : point)
      (dash_len gap_len : Q) (fill : color) (width : Z) (fuel fuel' : nat) :
  (fuel <= fuel')%nat ->
  extends (dashed_line hypot fuel p1 p2 dash_len gap_len fill width)
          (dashed_line hypot fuel' p1 p2 dash_len gap_len fill width).
Proof.
  intros Hle. destruct p1 as [x1 y1], p2 as [x2 y2]. unfold dashed_line.
  destruct (Qle_bool _ 0); [apply extends_refl | ].
  apply dashed_loop_extends, Hle.
Qed.

Lemma dashed_rect_extends (hypot : Q -> Q -> Q) (r : rect)
      (dash_len gap_len : Z) (fill : color) (width : Z) (fuel fuel' : nat) :
  (fuel <= fuel')%nat ->
  extends (dashed_rect hypot fuel r dash_len gap_len fill width)
          (dashed_rect hypot fuel' r dash_len gap_len fill width).
Proof.
  intros Hle. destruct r as [[[x0 y0] x1] y1]. unfold dashed_rect.
  repeat (apply extends_bind; [apply dashed_line_extends, Hle | intros _]).
  apply dashed_line_extends, Hle.
Qed.

Lemma render_row_extends (cfg : Config) (sc : Q) (hypot : Q -> Q -> Q)
      (fuel fuel' : nat) (r : nat) (y : Z) :
  (fuel <= fuel')%nat ->
  extends (render_row cfg sc hypot fuel r y) (render_row cfg sc hypot fuel' r y).
Proof.
  intros Hle. unfold render_row.
  destruct (cut0 (row_geom cfg sc r y)) as [[[a0 b0] c0] d0].
  destruct (cut1 (row_geom cfg sc r y)) as [[[a1 b1] c1] d1].
  repeat (apply extends_bind;
          [first [apply dashed_rect_extends, Hle | apply extends_refl] | intros ?]).
  apply extends_refl.
Qed.

Lemma render_rows_extends (cfg : Config) (sc : Q) (hypot : Q -> Q -> Q)
      (fuel fuel' : nat) (rs : list nat) :
  (fuel <= fuel')%nat ->
  forall y, extends (render_rows cfg sc hypot fuel rs y)
                    (render_rows cfg sc hypot fuel' rs y).
Proof.
  intros Hle. induction rs as [ | r rs IH]; intros y; cbn [render_rows].
  - apply extends_refl.
  - apply extends_bind; [apply render_row_extends, Hle | intros y'; apply IH].
Qed.

Lemma render_extends (cfg : Config) (sc : Q) (hypot : Q -> Q -> Q)
      (fuel fuel' : nat) :
  (fuel <= fuel')%nat ->
  extends (render cfg sc hypot fuel) (render cfg sc hypot fuel').
Proof.
  intros Hle. unfold render.
  apply extends_bind; [apply render_rows_extends, Hle | intros _].
  apply extends_refl.
Qed.

Lemma run_extends (hypot : Q -> Q -> Q) (cfg : Config) (fuel fuel' : nat) :
  (fuel <= fuel')%nat ->
  run hypot fuel cfg <> Unfinished ->
  run hypot fuel' cfg = run hypot fuel cfg.
Proof.
  intros Hle Hrun. unfold run in *.
  destruct (s cfg) as [sc | e]; [ | reflexivity].
  rewrite (render_extends cfg sc hypot fuel fuel' Hle); [reflexivity | ].
  intros E. rewrite E in Hrun. contradiction.
Qed.

Lemma inject_Z_nonneg (z : Z) : 0 <= z -> (0 <= inject_Z z)%Q.
Proof. intros Hz. change 0%Q with (inject_Z 0). rewrite <- Zle_Qle. exact Hz. Qed.

Lemma inject_Z_positive (z : Z) : 0 < z -> (0 < inject_Z z)%Q.
Proof. intros Hz. change 0%Q with (inject_Z 0). rewrite <- Zlt_Qlt. exact Hz. Qed.

Lemma dashed_line_does (hypot : Q -> Q -> Q) (p1 p2 : point)
      (dash_len gap_len : Z) (fill : color) (width : Z) :
  1 <= dash_len -> 1 <= gap_len ->
  exists n, forall fuel, (n <= fuel)%nat ->
    exists ops,
      does (dashed_line hypot fuel p1 p2 (inject_Z dash_len) (inject_Z gap_len)
                        fill width) ops [] (Ok tt).
Proof.
  intros Hd Hg.
  assert (Hd' : (0 <= inject_Z dash_len)%Q) by (apply inject_Z_nonneg; lia).
  assert (Hp : (0 < inject_Z dash_len + inject_Z gap_len)%Q).
  { rewrite <- inject_Z_plus. apply inject_Z_positive. lia. }
  destruct (dashed_line_returns hypot p1 p2 _ _ fill width Hd' Hp) as [n Hn].
  exists n. intros fuel Hfuel. destruct (Hn fuel Hfuel) as (ops & Hops).
  exists ops. apply draws_does, Hops.
Qed.

Lemma dashed_rect_does (hypot : Q -> Q -> Q) (r : rect)
      (dash_len gap_len : Z) (fill : color) (width : Z) :
  1 <= dash_len -> 1 <= gap_len ->
  exists n, forall fuel, (n <= fuel)%nat ->
    exists ops,
      does (dashed_rect hypot fuel r dash_len gap_len fill width) ops [] (Ok tt).
Proof.
  intros Hd Hg. destruct r as [[[x0 y0] x1] y1]. unfold dashed_rect.
  destruct (dashed_line_does hypot (qpoint x0 y0) (qpoint x1 y0) _ _ fill width Hd Hg)
    as [n1 H1].
  destruct (dashed_line_does hypot (qpoint x1 y0) (qpoint x1 y1) _ _ fill width Hd Hg)
    as [n2 H2].
  destruct (dashed_line_does hypot (qpoint x1 y1) (qpoint x0 y1) _ _ fill width Hd Hg)
    as [n3 H3].
  destruct (dashed_line_does hypot (qpoint x0 y1) (qpoint x0 y0) _ _ fill width Hd Hg)
    as [n4 H4].
  exists (n1 + n2 + n3 + n4)%nat. intros fuel Hfuel.
  destruct (H1 fuel ltac:(lia)) as [o1 D1]. destruct (H2 fuel ltac:(lia)) as [o2 D2].
  destruct (H3 fuel ltac:(lia)) as [o3 D3]. destruct (H4 fuel ltac:(lia)) as [o4 D4].
  exists (o1 ++ o2 ++ o3 ++ o4).
  change (@nil json) with (@nil json ++ ([] ++ ([] ++ []))).
  repeat (eapply does_bind; [eassumption | ]). exact D4.
Qed.

Lemma corner_ticks_does (r : rect) (tick_len width : Z) (fill : color) :
  exists ops, does (corner_ticks r tick_len width fill) ops [] (Ok tt).
Proof.
  destruct r as [[[x0 y0] x1] y1]. unfold corner_ticks.
  eexists. apply draws_does.
  do 7 apply draws_cons. apply draws_draw.
Qed.

Lemma true_div_ok (a b : Z) :
  b <> 0 -> true_div a b = Ok (inject_Z a / inject_Z b)%Q.
Proof.
  intros Hb. unfold true_div. destruct (Z.eqb_spec b 0); [contradiction | reflexivity].
Qed.

Lemma rect_to_uv_ok (r : rect) (canvas_w canvas_h : Z) :
  canvas_w <> 0 -> canvas_h <> 0 ->
  rect_to_uv r canvas_w canvas_h = Ok (uv_dict r canvas_w canvas_h).
Proof.
  intros Hw Hh. destruct r as [[[x0 y0] x1] y1]. unfold rect_to_uv, uv_dict.
  rewrite !true_div_ok by assumption. reflexivity.
Qed.

Lemma rect_to_uv_zero (r : rect) (canvas_w canvas_h : Z) :
  canvas_w = 0 \/ canvas_h = 0 ->
  rect_to_uv r canvas_w canvas_h = Err ZeroDivisionError.
Proof.
  intros Hz. destruct r as [[[x0 y0] x1] y1]. unfold rect_to_uv, true_div.
  destruct (Z.eqb_spec canvas_w 0); [reflexivity | ].
  destruct (Z.eqb_spec canvas_h 0); [reflexivity | ].
  lia.
Qed.

Lemma records_ok (cfg : Config) (g : RowGeom) :
  CANVAS_W cfg <> 0 -> CANVAS_H cfg <> 0 ->
  left_record cfg g = Ok (left_json cfg g) /\
  right_record cfg g = Ok (right_json cfg g).
Proof.
  intros Hw Hh. unfold left_record, right_record.
  rewrite !rect_to_uv_ok by assumption. split; reflexivity.
Qed.

Lemma left_record_zero (cfg : Config) (g : RowGeom) :
  CANVAS_W cfg = 0 \/ CANVAS_H cfg = 0 ->
  left_record cfg g = Err ZeroDivisionError.
Proof.
  intros Hz. unfold left_record. rewrite rect_to_uv_zero by assumption. reflexivity.
Qed.

Lemma does_shape {A} (m : M A) (ops ops' : list DrawOp) (fs fs' : list json)
      (r : result A) :
  does m ops fs r -> ops = ops' -> fs = fs' -> does m ops' fs' r.
Proof. intros H -> ->. exact H. Qed.

Ltac does_step :=
  eapply does_bind;
  [ first [ eassumption | apply does_draw | apply does_append
          | apply does_lift | apply does_ret ]
  | cbv beta ].

Section RowRuns.

Variable cfg : Config.
Variable sc : Q.
Variable hypot : Q -> Q -> Q.
Variable r : nat.
Variable y : Z.

Let g : RowGeom := row_geom cfg sc r y.

(** The drawing part of an iteration needs fuel for its two dashed
    rectangles only. *)
Lemma row_fuel :
  exists n, forall fuel, (n <= fuel)%nat ->
    exists o0 o1,
      does (dashed_rect hypot fuel (safe0 g) (DASH_LEN cfg sc) (GAP_LEN cfg sc)
                        ACCENT (Z.max 1 (CUT_W cfg sc / 2))) o0 [] (Ok tt) /\
      does (dashed_rect hypot fuel (safe1 g) (DASH_LEN cfg sc) (GAP_LEN cfg sc)
                        ACCENT (Z.max 1 (CUT_W cfg sc / 2))) o1 [] (Ok tt).
Proof.
  assert (Hd : 1 <= DASH_LEN cfg sc) by apply Z.le_max_l.
  assert (Hg : 1 <= GAP_LEN cfg sc) by apply Z.le_max_l.
  destruct (dashed_rect_does hypot (safe0 g) _ _ ACCENT
                             (Z.max 1 (CUT_W cfg sc / 2)) Hd Hg) as [n0 H0].
  destruct (dashed_rect_does hypot (safe1 g) _ _ ACCENT
                             (Z.max 1 (CUT_W cfg sc / 2)) Hd Hg) as [n1 H1].
  exists (n0 + n1)%nat. intros fuel Hfuel.
  destruct (H0 fuel ltac:(lia)) as [o0 D0]. destruct (H1 fuel ltac:(lia)) as [o1 D1].
  exists o0, o1. split; assumption.
Qed.

(** One iteration on a canvas without a zero side: it draws, appends the
    two records and returns the next [y]. *)
Lemma render_row_does :
  CANVAS_W cfg <> 0 -> CANVAS_H cfg <> 0 ->
  exists n, forall fuel, (n <= fuel)%nat ->
    exists rest,
      does (render_row cfg sc hypot fuel r y)
           (draw_rectangle (cut0 g) FG (CUT_W cfg sc) :: rest)
           [left_json cfg g; right_json cfg g]
           (Ok (y + cell_h g + ROW_GAP_PX cfg)).
Proof.
  intros Hw Hh. destruct row_fuel as [n Hn]. exists n. intros fuel Hfuel.
  destruct (Hn fuel Hfuel) as (o0 & o1 & D0 & D1).
  destruct (corner_ticks_does (cut0 g) (TICK_LEN cfg sc) (TICK_W cfg sc) FG) as [t0 T0].
  destruct (corner_ticks_does (cut1 g) (TICK_LEN cfg sc) (TICK_W cfg sc) FG) as [t1 T1].
  unfold render_row. fold g.
  destruct (records_ok cfg g Hw Hh) as [-> ->].
  destruct (cut0 g) as [[[a0 b0] c0] d0].
  destruct (cut1 g) as [[[a1 b1] c1] d1].
  assert (Hseam : exists sm,
             does (if butted g
                   then draw (draw_text (c0 + 6, (Z.max b0 b1 + Z.min d0 d1) / 2 - 6)
                                        seam_label FG)
                   else ret tt) sm [] (Ok tt)).
  { destruct (butted g); eexists; [apply does_draw | apply does_ret]. }
  destruct Hseam as [sm Hsm].
  eexists. eapply does_shape.
  - repeat does_step. apply does_ret.
  - cbn [app]. reflexivity.
  - reflexivity.
Qed.

(** One iteration on a canvas with a zero side: it draws and the first
    [rect_to_uv] raises. *)
Lemma render_row_raises :
  CANVAS_W cfg = 0 \/ CANVAS_H cfg = 0 ->
  exists n, forall fuel, (n <= fuel)%nat ->
    exists rest,
      does (render_row cfg sc hypot fuel r y)
           (draw_rectangle (cut0 g) FG (CUT_W cfg sc) :: rest)
           []
           (Err ZeroDivisionError).
Proof.
  intros Hz. destruct row_fuel as [n Hn]. exists n. intros fuel Hfuel.
  destruct (Hn fuel Hfuel) as (o0 & o1 & D0 & D1).
  destruct (corner_ticks_does (cut0 g) (TICK_LEN cfg sc) (TICK_W cfg sc) FG) as [t0 T0].
  destruct (corner_ticks_does (cut1 g) (TICK_LEN cfg sc) (TICK_W cfg sc) FG) as [t1 T1].
  unfold render_row. fold g.
  rewrite (left_record_zero cfg g Hz).
  destruct (cut0 g) as [[[a0 b0] c0] d0].
  destruct (cut1 g) as [[[a1 b1] c1] d1].
  assert (Hseam : exists sm,
             does (if butted g
                   then draw (draw_text (c0 + 6, (Z.max b0 b1 + Z.min d0 d1) / 2 - 6)
                                        seam_label FG)
                   else ret tt) sm [] (Ok tt)).
  { destruct (butted g); eexists; [apply does_draw | apply does_ret]. }
  destruct Hseam as [sm Hsm].
  eexists. eapply does_shape.
  - repeat does_step. eapply does_bind_raise. apply does_lift.
  - cbn [app]. reflexivity.
  - reflexivity.
Qed.

End RowRuns.

Section Runs.

Variable cfg : Config.
Variable sc : Q.
Variable hypot : Q -> Q -> Q.

Let first_op : DrawOp :=
  draw_rectangle (cut0 (row_geom cfg sc 0 (grid_y0 cfg sc))) FG (CUT_W cfg sc).

Lemma render_does :
  CANVAS_W cfg <> 0 -> CANVAS_H cfg <> 0 ->
  exists n, forall fuel, (n <= fuel)%nat ->
    exists rest,
      does (render cfg sc hypot fuel) (first_op :: rest) (face_records cfg sc) (Ok tt).
Proof.
  intros Hw Hh.
  destruct (render_row_does cfg sc hypot 0 (row_y cfg sc 0) Hw Hh) as [n0 H0].
  destruct (render_row_does cfg sc hypot 1 (row_y cfg sc 1) Hw Hh) as [n1 H1].
  destruct (render_row_does cfg sc hypot 2 (row_y cfg sc 2) Hw Hh) as [n2 H2].
  exists (n0 + n1 + n2)%nat. intros fuel Hfuel.
  destruct (H0 fuel ltac:(lia)) as [o0 D0]. destruct (H1 fuel ltac:(lia)) as [o1 D1].
  destruct (H2 fuel ltac:(lia)) as [o2 D2].
  unfold render. cbn [seq render_rows].
  eexists. eapply does_shape.
  - eapply does_bind.
    { do 3 (eapply does_bind; [eassumption | cbv beta]). apply does_ret. }
    cbv beta. does_step. apply does_draw.
  - cbn [app]. reflexivity.
  - reflexivity.
Qed.

Lemma render_raises :
  CANVAS_W cfg = 0 \/ CANVAS_H cfg = 0 ->
  exists n, forall fuel, (n <= fuel)%nat ->
    exists rest,
      does (render cfg sc hypot fuel) (first_op :: rest) [] (Err ZeroDivisionError).
Proof.
  intros Hz.
  destruct (render_row_raises cfg sc hypot 0 (row_y cfg sc 0) Hz) as [n0 H0].
  exists n0. intros fuel Hfuel. destruct (H0 fuel Hfuel) as [o0 D0].
  unfold render. cbn [seq render_rows].
  exists o0. do 2 apply does_bind_raise. exact D0.
Qed.

End Runs.

(** When the scale exists and the canvas has no zero side, the script
    finishes: it has drawn, and the metadata holds the six records. *)
Lemma run_finishes (hypot : Q -> Q -> Q) (cfg : Config) (sc : Q) :
  s cfg = Ok sc -> CANVAS_W cfg <> 0 -> CANVAS_H cfg <> 0 ->
  exists n, forall fuel, (n <= fuel)%nat ->
    exists op rest,
      run hypot fuel cfg =
      Finished (op :: rest) (metadata cfg sc (face_records cfg sc)).
Proof.
  intros Hs Hw Hh. destruct (render_does cfg sc hypot Hw Hh) as [n Hn].
  exists n. intros fuel Hfuel. destruct (Hn fuel Hfuel) as [rest Hrun].
  eexists _, rest. unfold run. rewrite Hs, Hrun. reflexivity.
Qed.

(** When the scale exists and the canvas has a zero side, the script
    raises in the first [rect_to_uv], after it has drawn. *)
Lemma run_crashes_late (hypot : Q -> Q -> Q) (cfg : Config) (sc : Q) :
  s cfg = Ok sc -> CANVAS_W cfg = 0 \/ CANVAS_H cfg = 0 ->
  exists n, forall fuel, (n <= fuel)%nat ->
    exists op rest, run hypot fuel cfg = Crashed ZeroDivisionError (op :: rest).
Proof.
  intros Hs Hz. destruct (render_raises cfg sc hypot Hz) as [n Hn].
  exists n. intros fuel Hfuel. destruct (Hn fuel Hfuel) as [rest Hrun].
  eexists _, rest. unfold run. rewrite Hs, Hrun. reflexivity.
Qed.

(** Whatever the fuel, a run that finished has produced the six records. *)
Lemma run_finished_meta (hypot : Q -> Q -> Q) (fuel : nat) (cfg : Config)
      (png : list DrawOp) (meta : json) :
  run hypot fuel cfg = Finished png meta ->
  exists sc,
    s cfg = Ok sc /\ CANVAS_W cfg <> 0 /\ CANVAS_H cfg <> 0 /\
    png <> [] /\
    meta = metadata cfg sc (face_records cfg sc).
Proof.
  intros Hrun.
  destruct (s cfg) as [sc | e] eqn:Hs.
  2:{ unfold run in Hrun. rewrite Hs in Hrun. discriminate. }
  exists sc. split; [reflexivity | ].
  assert (Hstay : forall fuel', (fuel <= fuel')%nat ->
                                run hypot fuel' cfg = Finished png meta).
  { intros fuel' Hle. rewrite (run_extends hypot cfg fuel fuel' Hle); [exact Hrun | ].
    rewrite Hrun. discriminate. }
  destruct (Z.eq_dec (CANVAS_W cfg) 0) as [Zw | Nw].
  { destruct (run_crashes_late hypot cfg sc Hs (or_introl Zw)) as [n Hn].
    destruct (Hn (Nat.max fuel n) ltac:(lia)) as (op & rest & Hc).
    rewrite Hstay in Hc by lia. discriminate. }
  destruct (Z.eq_dec (CANVAS_H cfg) 0) as [Zh | Nh].
  { destruct (run_crashes_late hypot cfg sc Hs (or_intror Zh)) as [n Hn].
    destruct (Hn (Nat.max fuel n) ltac:(lia)) as (op & rest & Hc).
    rewrite Hstay in Hc by lia. discriminate. }
  destruct (run_finishes hypot cfg sc Hs Nw Nh) as [n Hn].
  destruct (Hn (Nat.max fuel n) ltac:(lia)) as (op & rest & Hf).
  rewrite Hstay in Hf by lia. injection Hf as -> ->.
  repeat split; try assumption. discriminate.
Qed.

(* ====================================================================== *)
(** ** Errors of the layout *)
(* ====================================================================== *)







(* ====================================================================== *)
(** ** The metadata *)
(* ====================================================================== *)

Lemma face_records_unrolled (cfg : Config) (sc : Q) :
  let g r := row_geom cfg sc r (row_y cfg sc r) in
  face_records cfg sc =
  [ left_json cfg (g 0%nat); right_json cfg (g 0%nat);
    left_json cfg (g 1%nat); right_json cfg (g 1%nat);
    left_json cfg (g 2%nat); right_json cfg (g 2%nat) ].
Proof. reflexivity. Qed.

Lemma metadata_faces (cfg : Config) (sc : Q) (fs : list json) :
  lookup "faces" (metadata cfg sc fs) = Some (JList fs).
Proof. reflexivity. Qed.

Lemma uv_dict_shaped (r : rect) (canvas_w canvas_h : Z) :
  rect_shaped (uv_dict r canvas_w canvas_h).
Proof.
  destruct r as [[[x0 y0] x1] y1]. unfold rect_shaped, uv_dict.
  do 8 eexists. reflexivity.
Qed.

Lemma inject_Z_nonzero (z : Z) : z <> 0 -> ~ (inject_Z z == 0)%Q.
Proof. intros Hz E. apply Hz. unfold Qeq in E. cbn in E. lia. Qed.

Lemma uv_dict_consistent (r : rect) (canvas_w canvas_h : Z) :
  canvas_w <> 0 -> canvas_h <> 0 ->
  uv_consistent canvas_w canvas_h (uv_dict r canvas_w canvas_h).
Proof.
  intros Hw Hh. destruct r as [[[x0 y0] x1] y1]. unfold uv_consistent, uv_dict.
  apply inject_Z_nonzero in Hw. apply inject_Z_nonzero in Hh.
  do 8 eexists. split; [reflexivity | ].
  repeat split; try reflexivity; field; assumption.
Qed.

Lemma left_json_shape (cfg : Config) (g : RowGeom) :
  base_shape (left_json cfg g) /\
  keys (left_json cfg g) = ["name"; "meters"; "cut_rect"; "safe_rect"] /\
  lookup "cut_rect" (left_json cfg g) =
    Some (uv_dict (cut0 g) (CANVAS_W cfg) (CANVAS_H cfg)) /\
  lookup "safe_rect" (left_json cfg g) =
    Some (uv_dict (safe0 g) (CANVAS_W cfg) (CANVAS_H cfg)).
Proof.
  split; [ | repeat split].
  unfold base_shape. do 5 eexists.
  repeat split; try reflexivity; apply uv_dict_shaped.
Qed.

Lemma right_json_shape (cfg : Config) (g : RowGeom) :
  base_shape (right_json cfg g) /\
  keys (right_json cfg g) =
    ["name"; "meters"; "cut_rect"; "safe_rect"; "butted_to_side_right_edge"] /\
  lookup "butted_to_side_right_edge" (right_json cfg g) = Some (JBool (butted g)) /\
  lookup "cut_rect" (right_json cfg g) =
    Some (uv_dict (cut1 g) (CANVAS_W cfg) (CANVAS_H cfg)) /\
  lookup "safe_rect" (right_json cfg g) =
    Some (uv_dict (safe1 g) (CANVAS_W cfg) (CANVAS_H cfg)).
Proof.
  split; [ | repeat split].
  unfold base_shape. do 5 eexists.
  repeat split; try reflexivity; apply uv_dict_shaped.
Qed.

(** C4, amended: the metadata holds six records; each has a name, the
    meters and both rectangles in pixels and in UV; the records of the
    right column (odd positions) also carry the boolean
    [butted_to_side_right_edge], those of the left column (even positions)
    have the four other keys only. *)
Theorem face_record_shapes (hypot : Q -> Q -> Q) (fuel : nat) (cfg : Config)
        (png : list DrawOp) (meta : json) :
  run hypot fuel cfg = Finished png meta ->
  exists fs,
    lookup "faces" meta = Some (JList fs) /\
    List.length fs = 6%nat /\
    forall i f, nth_error fs i = Some f ->
      base_shape f /\
      if Nat.even i
      then keys f = ["name"; "meters"; "cut_rect"; "safe_rect"] /\
           has_key "butted_to_side_right_edge" f = false
      else keys f = ["name"; "meters"; "cut_rect"; "safe_rect";
                     "butted_to_side_right_edge"] /\
           exists b, lookup "butted_to_side_right_edge" f = Some (JBool b).
Proof.
  intros Hrun.
  destruct (run_finished_meta hypot fuel cfg png meta Hrun) as (sc & _ & _ & _ & _ & ->).
  exists (face_records cfg sc).
  split; [apply metadata_faces | split; [reflexivity | ]].
  rewrite face_records_unrolled. cbv zeta.
  intros i f Hf.
  destruct i as [ | [ | [ | [ | [ | [ | i]]]]]]; cbn [nth_error] in Hf;
    [injection Hf as <- .. | ]; cbn [Nat.even].
  - destruct (left_json_shape cfg (row_geom cfg sc 0 (row_y cfg sc 0))) as (B & K & _).
    split; [exact B | split; [exact K | reflexivity]].
  - destruct (right_json_shape cfg (row_geom cfg sc 0 (row_y cfg sc 0))) as (B & K & F & _).
    split; [exact B | split; [exact K | eexists; exact F]].
  - destruct (left_json_shape cfg (row_geom cfg sc 1 (row_y cfg sc 1))) as (B & K & _).
    split; [exact B | split; [exact K | reflexivity]].
  - destruct (right_json_shape cfg (row_geom cfg sc 1 (row_y cfg sc 1))) as (B & K & F & _).
    split; [exact B | split; [exact K | eexists; exact F]].
  - destruct (left_json_shape cfg (row_geom cfg sc 2 (row_y cfg sc 2))) as (B & K & _).
    split; [exact B | split; [exact K | reflexivity]].
  - destruct (right_json_shape cfg (row_geom cfg sc 2 (row_y cfg sc 2))) as (B & K & F & _).
    split; [exact B | split; [exact K | eexists; exact F]].
  - destruct i; discriminate.
Qed.

Lemma cramped_finishes :
  exists png meta, run hypot_axis 4 cramped = Finished png meta.
Proof. eexists _, _. vm_compute. reflexivity. Defined.

Lemma face_record_shapes_cramped :
  exists png meta,
    run hypot_axis 4 cramped = Finished png meta /\
    exists fs,
      lookup "faces" meta = Some (JList fs) /\
      List.length fs = 6%nat /\
      forall i f, nth_error fs i = Some f ->
        base_shape f /\
        if Nat.even i
        then keys f = ["name"; "meters"; "cut_rect"; "safe_rect"] /\
             has_key "butted_to_side_right_edge" f = false
        else keys f = ["name"; "meters"; "cut_rect"; "safe_rect";
                       "butted_to_side_right_edge"] /\
             exists b, lookup "butted_to_side_right_edge" f = Some (JBool b).
Proof.
  destruct cramped_finishes as (png & meta & Hrun).
  exists png, meta. split; [exact Hrun | ].
  exact (face_record_shapes hypot_axis 4 cramped png meta Hrun).
Defined.

(** C4 as stated fails: in the metadata of the shipped configuration the
    record of SIDE A, the first one, has no [butted_to_side_right_edge]. *)
Lemma shipped_left_record_has_no_flag :
  exists png meta fs f,
    run hypot_axis 400 shipped = Finished png meta /\
    lookup "faces" meta = Some (JList fs) /\
    nth_error fs 0 = Some f /\
    lookup "name" f = Some (JStr "SIDE A") /\
    keys f = ["name"; "meters"; "cut_rect"; "safe_rect"] /\
    has_key "butted_to_side_right_edge" f = false.
Proof.
  eexists _, _, _, _.
  split; [vm_compute; reflexivity | ].
  split; [reflexivity | ].
  split; [reflexivity | ].
  split; [reflexivity | ].
  split; reflexivity.
Qed.

(** Every record of a finished run holds its two rectangles as
    [rect_to_uv] built them. *)
Lemma record_rects (cfg : Config) (sc : Q) (f : json) :
  In f (face_records cfg sc) ->
  exists (g : RowGeom) (cut safe : rect),
    In g (rows cfg sc) /\ In (cut, safe) (row_faces g) /\
    lookup "cut_rect" f = Some (uv_dict cut (CANVAS_W cfg) (CANVAS_H cfg)) /\
    lookup "safe_rect" f = Some (uv_dict safe (CANVAS_W cfg) (CANVAS_H cfg)).
Proof.
  unfold face_records. rewrite in_flat_map. intros (g & Hg & Hf).
  cbn [In] in Hf. destruct Hf as [<- | [<- | []]].
  - exists g, (cut0 g), (safe0 g). repeat split; try assumption.
    left. reflexivity.
  - exists g, (cut1 g), (safe1 g). repeat split; try assumption.
    right. left. reflexivity.
Qed.

(** C7: the normalised rectangle that [rect_to_uv] returns is the pixel
    rectangle divided by the canvas size, so that multiplying back gives
    the pixels; this holds for the cut and the safe rectangle of every
    record the script emits. *)
Theorem uv_is_px_over_canvas :
  (forall (r : rect) (canvas_w canvas_h : Z),
      canvas_w <> 0 -> canvas_h <> 0 ->
      exists j, rect_to_uv r canvas_w canvas_h = Ok j /\
                uv_consistent canvas_w canvas_h j) /\
  (forall (hypot : Q -> Q -> Q) (fuel : nat) (cfg : Config)
          (png : list DrawOp) (meta : json),
      run hypot fuel cfg = Finished png meta ->
      exists fs,
        lookup "faces" meta = Some (JList fs) /\
        forall f, In f fs ->
          exists c sf,
            lookup "cut_rect" f = Some c /\
            lookup "safe_rect" f = Some sf /\
            uv_consistent (CANVAS_W cfg) (CANVAS_H cfg) c /\
            uv_consistent (CANVAS_W cfg) (CANVAS_H cfg) sf).
Proof.
  split.
  - intros r cw ch Hw Hh. exists (uv_dict r cw ch).
    split; [apply rect_to_uv_ok; assumption | apply uv_dict_consistent; assumption].
  - intros hypot fuel cfg png meta Hrun.
    destruct (run_finished_meta hypot fuel cfg png meta Hrun)
      as (sc & _ & Hw & Hh & _ & ->).
    exists (face_records cfg sc). split; [apply metadata_faces | ].
    intros f Hf.
    destruct (record_rects cfg sc f Hf) as (g & cut & safe & _ & _ & Hc & Hsf).
    exists (uv_dict cut (CANVAS_W cfg) (CANVAS_H cfg)),
           (uv_dict safe (CANVAS_W cfg) (CANVAS_H cfg)).
    repeat split; try assumption; apply uv_dict_consistent; assumption.
Qed.

Lemma uv_is_px_over_canvas_examples :
  (exists j, rect_to_uv (60, 626, 1004, 866) 2048 2048 = Ok j /\
             uv_consistent 2048 2048 j) /\
  (exists png meta,
      run hypot_axis 4 cramped = Finished png meta /\
      exists fs,
        lookup "faces" meta = Some (JList fs) /\
        forall f, In f fs ->
          exists c sf,
            lookup "cut_rect" f = Some c /\
            lookup "safe_rect" f = Some sf /\
            uv_consistent (CANVAS_W cramped) (CANVAS_H cramped) c /\
            uv_consistent (CANVAS_W cramped) (CANVAS_H cramped) sf).
Proof.
  split.
  - apply (proj1 uv_is_px_over_canvas); discriminate.
  - destruct cramped_finishes as (png & meta & Hrun).
    exists png, meta. split; [exact Hrun | ].
    exact (proj2 uv_is_px_over_canvas hypot_axis 4%nat cramped png meta Hrun).
Defined.





(* ====================================================================== *)
(** ** What the metadata tells *)
(* ====================================================================== *)

Lemma px_of_uv_dict (r : rect) (canvas_w canvas_h : Z) :
  px_of (uv_dict r canvas_w canvas_h) = Some r.
Proof. destruct r as [[[x0 y0] x1] y1]. reflexivity. Qed.

Lemma face_records_nth (cfg : Config) (sc : Q) (r : nat) :
  (r < 3)%nat ->
  let g := row_geom cfg sc r (row_y cfg sc r) in
  nth_error (face_records cfg sc) (2 * r) = Some (left_json cfg g) /\
  nth_error (face_records cfg sc) (2 * r + 1) = Some (right_json cfg g).
Proof.
  intros Hr. rewrite face_records_unrolled.
  destruct r as [ | [ | [ | r]]]; try lia; split; reflexivity.
Qed.

(** X1: the metadata of a finished run records the canvas size and the
    scale, and lists the six faces row by row, left before right: the
    record at position [2r + c] carries the name and the meters of
    [grid[r][c]]. *)
Theorem metadata_follows_grid (hypot : Q -> Q -> Q) (fuel : nat) (cfg : Config)
        (png : list DrawOp) (meta : json) :
  run hypot fuel cfg = Finished png meta ->
  exists sc fs,
    s cfg = Ok sc /\
    lookup "canvas_px" meta = Some (JList [JInt (CANVAS_W cfg); JInt (CANVAS_H cfg)]) /\
    lookup "scale_px_per_meter" meta = Some (JFloat sc) /\
    lookup "faces" meta = Some (JList fs) /\
    forall r c, (r < 3)%nat -> (c < 2)%nat ->
      exists f,
        nth_error fs (2 * r + c) = Some f /\
        lookup "name" f = Some (JStr (name (cell (grid cfg) r c))) /\
        lookup "meters" f =
          Some (JDict [ ("w", JFloat (width_m (cell (grid cfg) r c)));
                        ("h", JFloat (height_m (cell (grid cfg) r c))) ]).
Proof.
  intros Hrun.
  destruct (run_finished_meta hypot fuel cfg png meta Hrun) as (sc & Hs & _ & _ & _ & ->).
  exists sc, (face_records cfg sc).
  split; [exact Hs | ].
  split; [reflexivity | split; [reflexivity | split; [reflexivity | ]]].
  intros r c Hr Hc.
  destruct (face_records_nth cfg sc r Hr) as [Hl Hrt].
  destruct c as [ | [ | c]]; try lia.
  - rewrite Nat.add_0_r. eexists. split; [exact Hl | split; reflexivity].
  - eexists. split; [exact Hrt | split; reflexivity].
Qed.

Lemma metadata_follows_grid_cramped :
  exists png meta,
    run hypot_axis 4 cramped = Finished png meta /\
    exists sc fs,
      s cramped = Ok sc /\
      lookup "canvas_px" meta =
        Some (JList [JInt (CANVAS_W cramped); JInt (CANVAS_H cramped)]) /\
      lookup "scale_px_per_meter" meta = Some (JFloat sc) /\
      lookup "faces" meta = Some (JList fs) /\
      forall r c, (r < 3)%nat -> (c < 2)%nat ->
        exists f,
          nth_error fs (2 * r + c) = Some f /\
          lookup "name" f = Some (JStr (name (cell (grid cramped) r c))) /\
          lookup "meters" f =
            Some (JDict [ ("w", JFloat (width_m (cell (grid cramped) r c)));
                          ("h", JFloat (height_m (cell (grid cramped) r c))) ]).
Proof.
  destruct cramped_finishes as (png & meta & Hrun).
  exists png, meta. split; [exact Hrun | ].
  exact (metadata_follows_grid hypot_axis 4%nat cramped png meta Hrun).
Defined.

(** X2: in the metadata of a finished run the flag of a right-hand record
    is the outcome of the name test of its row, and the pixel rectangles
    read back from the two records of a flagged row abut: the right one
    starts at the x where the left one ends, at the same width it would
    have unflagged. *)
Theorem flag_tells_butting (hypot : Q -> Q -> Q) (fuel : nat) (cfg : Config)
        (png : list DrawOp) (meta : json) :
  run hypot fuel cfg = Finished png meta ->
  exists sc fs,
    s cfg = Ok sc /\
    lookup "faces" meta = Some (JList fs) /\
    forall r, (r < 3)%nat ->
      exists l rt cl cr b,
        nth_error fs (2 * r) = Some l /\
        nth_error fs (2 * r + 1) = Some rt /\
        px_under "cut_rect" l = Some cl /\
        px_under "cut_rect" rt = Some cr /\
        lookup "butted_to_side_right_edge" rt = Some (JBool b) /\
        b = Py.startswith (name (cell (grid cfg) r 1)) "END"
            && Py.startswith (name (cell (grid cfg) r 0)) "SIDE" /\
        (b = true -> rx0 cr = rx1 cl) /\
        rx1 cr - rx0 cr = Py.round (width_m (cell (grid cfg) r 1) * sc).
Proof.
  intros Hrun.
  destruct (run_finished_meta hypot fuel cfg png meta Hrun) as (sc & Hs & _ & _ & _ & ->).
  exists sc, (face_records cfg sc).
  split; [exact Hs | split; [reflexivity | ]].
  intros r Hr.
  destruct (face_records_nth cfg sc r Hr) as [Hl Hrt].
  set (g := row_geom cfg sc r (row_y cfg sc r)) in *.
  destruct (row_geom_cuts cfg sc r (row_y cfg sc r)) as (Hb & _ & Hc0 & Hc1 & _).
  fold g in Hb, Hc0, Hc1.
  exists (left_json cfg g), (right_json cfg g), (cut0 g), (cut1 g), (butted g).
  split; [exact Hl | split; [exact Hrt | ]].
  split; [apply px_of_uv_dict | split; [apply px_of_uv_dict | ]].
  split; [reflexivity | split; [exact Hb | ]].
  split.
  - intros Hflag. rewrite Hflag in Hc1. rewrite Hc0, Hc1. reflexivity.
  - rewrite Hc1. cbn [rx0 rx1]. lia.
Qed.

Lemma flag_tells_butting_cramped :
  exists png meta,
    run hypot_axis 4 cramped = Finished png meta /\
    exists sc fs,
      s cramped = Ok sc /\
      lookup "faces" meta = Some (JList fs) /\
      forall r, (r < 3)%nat ->
        exists l rt cl cr b,
          nth_error fs (2 * r) = Some l /\
          nth_error fs (2 * r + 1) = Some rt /\
          px_under "cut_rect" l = Some cl /\
          px_under "cut_rect" rt = Some cr /\
          lookup "butted_to_side_right_edge" rt = Some (JBool b) /\
          b = Py.startswith (name (cell (grid cramped) r 1)) "END"
              && Py.startswith (name (cell (grid cramped) r 0)) "SIDE" /\
          (b = true -> rx0 cr = rx1 cl) /\
          rx1 cr - rx0 cr = Py.round (width_m (cell (grid cramped) r 1) * sc).
Proof.
  destruct cramped_finishes as (png & meta & Hrun).
  exists png, meta. split; [exact Hrun | ].
  exact (flag_tells_butting hypot_axis 4%nat cramped png meta Hrun).
Defined.

(* ====================================================================== *)
(** ** How a run ends *)
(* ====================================================================== *)









(* ====================================================================== *)
(** ** More on the dashed line *)
(* ====================================================================== *)

Lemma draws_unique (m : M unit) (ops ops' : list DrawOp) :
  draws m ops -> draws m ops' -> ops = ops'.
Proof.
  intros H H'. specialize (H (mkWorld [] [])). specialize (H' (mkWorld [] [])).
  rewrite H in H'. injection H' as E. exact E.
Qed.

(** With a period that is not positive the distance walked never grows,
    and the loop never leaves an edge of positive length. *)
Lemma dashed_loop_hangs (x1 y1 ux uy len dash_len gap_len : Q)
      (fill : color) (width : Z) :
  (0 < len)%Q -> (dash_len + gap_len <= 0)%Q ->
  forall fuel dist w,
    (dist <= 0)%Q ->
    dashed_loop fuel x1 y1 ux uy len dash_len gap_len fill width dist w = OutOfFuel.
Proof.
  intros Hlen Hperiod. induction fuel as [ | fuel IH]; intros dist w Hdist;
    rewrite dashed_loop_unfold;
    (assert (Hgo : Qltb dist len = true) by (apply Qltb_lt; lra)); rewrite Hgo.
  - reflexivity.
  - cbv zeta. unfold bind, draw. apply IH. lra.
Qed.

(** X5: on an edge of positive length, [dashed_line] with
    [dash_len + gap_len <= 0] never returns: whatever the fuel, the loop is
    still running when it is used up. *)
Theorem dashed_line_hangs (hypot : Q -> Q -> Q) (fuel : nat) (p1 p2 : point)
        (dash_len gap_len : Q) (fill : color) (width : Z) (w : World) :
  (0 < hypot (fst p2 - fst p1) (snd p2 - snd p1))%Q ->
  (dash_len + gap_len <= 0)%Q ->
  dashed_line hypot fuel p1 p2 dash_len gap_len fill width w = OutOfFuel.
Proof.
  intros Hlen Hperiod. destruct p1 as [x1 y1], p2 as [x2 y2].
  cbn [fst snd] in Hlen. unfold dashed_line.
  destruct (Qle_bool (hypot (x2 - x1)%Q (y2 - y1)%Q) 0) eqn:E.
  - apply Qle_bool_iff in E. lra.
  - apply dashed_loop_hangs; [exact Hlen | exact Hperiod | apply Qle_refl].
Qed.

Lemma dashed_line_hangs_ten_pixels :
  dashed_line hypot_axis 1000 (0, 0)%Q (10, 0)%Q 3 (-3) ACCENT 1 (mkWorld [] [])
  = OutOfFuel.
Proof.
  apply (dashed_line_hangs hypot_axis 1000 (0, 0)%Q (10, 0)%Q 3 (-3) ACCENT 1).
  - reflexivity.
  - vm_compute. discriminate.
Defined.

Section DashCount.

Variables x1 y1 ux uy : Q.
Variables len dash_len gap_len : Q.
Variable fill : color.
Variable width : Z.

Hypothesis period_positive : (0 < dash_len + gap_len)%Q.

(** Entered after [k] periods with [n] periods still to start before the
    end of the edge, the loop draws [n] lines. *)
Lemma dashed_loop_count (n : nat) :
  forall (k : nat) (dist : Q) (fuel : nat),
    (dist == inject_Z (Z.of_nat k) * (dash_len + gap_len))%Q ->
    (len <= inject_Z (Z.of_nat k + Z.of_nat n) * (dash_len + gap_len))%Q ->
    ((0 < n)%nat ->
     (inject_Z (Z.of_nat k + Z.of_nat n - 1) * (dash_len + gap_len) < len)%Q) ->
    (n <= fuel)%nat ->
    exists ops,
      draws (dashed_loop fuel x1 y1 ux uy len dash_len gap_len fill width dist) ops /\
      List.length ops = n.
Proof.
  induction n as [ | n IH]; intros k dist fuel Hk Hend Hlast Hfuel;
    rewrite dashed_loop_unfold.
  - assert (Hdone : Qltb dist len = false).
    { apply Qltb_ge. rewrite Z.add_0_r in Hend. rewrite Hk. exact Hend. }
    rewrite Hdone. exists []. split; [apply draws_ret | reflexivity].
  - specialize (Hlast ltac:(lia)).
    replace (Z.of_nat k + Z.of_nat (S n) - 1) with (Z.of_nat k + Z.of_nat n) in Hlast
      by lia.
    rewrite inject_Z_plus in Hlast.
    assert (Hn : (0 <= inject_Z (Z.of_nat n) * (dash_len + gap_len))%Q).
    { apply Qmult_le_0_compat; [apply inject_Z_nonneg; lia | lra]. }
    assert (Hgo : Qltb dist len = true) by (apply Qltb_lt; lra).
    rewrite Hgo. destruct fuel as [ | fuel]; [lia | ].
    destruct (IH (S k) (dist + (dash_len + gap_len))%Q fuel) as (ops & Hops & Hlen).
    + rewrite Nat2Z.inj_succ. unfold Z.succ. rewrite inject_Z_plus.
      change (inject_Z 1) with 1%Q. rewrite Hk. ring.
    + replace (Z.of_nat (S k) + Z.of_nat n) with (Z.of_nat k + Z.of_nat (S n)) by lia.
      exact Hend.
    + intros Hpos.
      replace (Z.of_nat (S k) + Z.of_nat n - 1) with (Z.of_nat k + Z.of_nat n) by lia.
      rewrite inject_Z_plus. exact Hlast.
    + lia.
    + eexists. split; [apply draws_cons, Hops | ]. cbn [List.length]. lia.
Qed.

Hypothesis len_positive : (0 < len)%Q.

(** From the start of the edge: one line per started period. *)
Lemma dashed_loop_count_all (fuel : nat) :
  let n := Z.to_nat (Qceiling (len / (dash_len + gap_len))) in
  (n <= fuel)%nat ->
  exists ops,
    draws (dashed_loop fuel x1 y1 ux uy len dash_len gap_len fill width 0) ops /\
    List.length ops = n.
Proof.
  intros n Hfuel.
  set (P := (dash_len + gap_len)%Q) in *.
  assert (Hq : (0 <= len / P)%Q) by (apply Qle_shift_div_l; lra).
  pose proof (Qceiling_resp_le _ _ Hq) as Hc. change (Qceiling 0) with 0 in Hc.
  assert (Hn : Z.of_nat n = Qceiling (len / P)) by (unfold n; apply Z2Nat.id, Hc).
  assert (E : (len == len / P * P)%Q) by (field; lra).
  apply (dashed_loop_count n 0%nat 0%Q fuel).
  - change (inject_Z (Z.of_nat 0)) with 0%Q. ring.
  - replace (Z.of_nat 0 + Z.of_nat n) with (Qceiling (len / P)) by lia.
    pose proof (Qle_ceiling (len / P)) as Hup.
    assert (Hm : (len / P * P <= inject_Z (Qceiling (len / P)) * P)%Q)
      by (apply Qmult_le_compat_r; lra).
    unfold P in *. lra.
  - intros _.
    replace (Z.of_nat 0 + Z.of_nat n - 1) with (Qceiling (len / P) - 1) by lia.
    pose proof (Qceiling_lt (len / P)) as Hlo.
    assert (Hm : (inject_Z (Qceiling (len / P) - 1) * P < len / P * P)%Q)
      by (apply Qmult_lt_compat_r; lra).
    unfold P in *. lra.
  - exact Hfuel.
Qed.

End DashCount.



(* ====================================================================== *)
(** ** The dashed rectangle and the corner ticks *)
(* ====================================================================== *)

Lemma ceiling_of_ratio (a p : Z) :
  0 < p -> Qceiling (inject_Z a / inject_Z p) = (a + p - 1) / p.
Proof.
  intros Hp. unfold Qceiling.
  assert (E : (- (inject_Z a / inject_Z p) == inject_Z (- a) / inject_Z p)%Q).
  { rewrite inject_Z_opp. field. apply inject_Z_nonzero. lia. }
  rewrite (Qfloor_comp _ _ E). rewrite <- Zdiv_Qdiv.
  Z.to_euclidean_division_equations. nia.
Qed.

Lemma abs_of_difference (a b : Z) :
  (Qabs (inject_Z a - inject_Z b) == inject_Z (Z.abs (a - b)))%Q.
Proof.
  assert (E : (inject_Z a - inject_Z b == inject_Z (a - b))%Q)
    by (unfold Z.sub; rewrite inject_Z_plus, inject_Z_opp; reflexivity).
  rewrite E. reflexivity.
Qed.

(** One edge of a dashed rectangle: as many dashes as periods start on
    it, all of them on the edge. *)
Lemma dashed_edge (hypot : Q -> Q -> Q) (xa ya xb yb len : Z)
      (dash_len gap_len : Z) (fill : color) (width : Z) :
  1 <= dash_len -> 1 <= gap_len -> 0 <= len ->
  (hypot (inject_Z xb - inject_Z xa) (inject_Z yb - inject_Z ya) == inject_Z len)%Q ->
  exists n, forall fuel, (n <= fuel)%nat ->
    exists ops,
      draws (dashed_line hypot fuel (qpoint xa ya) (qpoint xb yb)
                         (inject_Z dash_len) (inject_Z gap_len) fill width) ops /\
      List.length ops = dashes_on len (dash_len + gap_len) /\
      forall op, In op ops ->
        exists a b, op = draw_line a b fill width /\
                    on_edge (qpoint xa ya) (qpoint xb yb) a /\
                    on_edge (qpoint xa ya) (qpoint xb yb) b.
Proof.
  intros Hd Hg Hlen0 Hlen.
  assert (Hd' : (0 <= inject_Z dash_len)%Q) by (apply inject_Z_nonneg; lia).
  assert (Hp : (0 < inject_Z dash_len + inject_Z gap_len)%Q).
  { rewrite <- inject_Z_plus. apply inject_Z_positive. lia. }
  set (L := hypot (inject_Z xb - inject_Z xa)%Q (inject_Z yb - inject_Z ya)%Q) in *.
  unfold dashed_line, qpoint. fold L.
  destruct (Qle_bool L 0) eqn:Hz.
  - exists 0%nat. intros fuel _. exists [].
    split; [apply draws_ret | split].
    + apply Qle_bool_iff in Hz. rewrite Hlen in Hz.
      change 0%Q with (inject_Z 0) in Hz. rewrite <- Zle_Qle in Hz.
      assert (len = 0) by lia. subst len. unfold dashes_on.
      rewrite Z.div_small by lia. reflexivity.
    + intros op [].
  - assert (Hpos : (0 < L)%Q).
    { apply Qnot_le_lt. intros Hle. apply Qle_bool_iff in Hle. congruence. }
    set (P := (inject_Z dash_len + inject_Z gap_len)%Q) in *.
    set (n := Z.to_nat (Qceiling (L / P))).
    assert (Hn : n = dashes_on len (dash_len + gap_len)).
    { unfold n, dashes_on. f_equal.
      rewrite <- ceiling_of_ratio by lia.
      apply Qceiling_comp. unfold P. rewrite Hlen, inject_Z_plus. reflexivity. }
    exists n. intros fuel Hfuel.
    destruct (dashed_loop_count_all (inject_Z xa) (inject_Z ya)
                ((inject_Z xb - inject_Z xa) / L)%Q ((inject_Z yb - inject_Z ya) / L)%Q
                L (inject_Z dash_len) (inject_Z gap_len) fill width Hp Hpos fuel Hfuel)
      as (ops & Hops & Hcount).
    destruct (dashed_loop_draws (inject_Z xa, inject_Z ya) (inject_Z xb, inject_Z yb)
                L (inject_Z dash_len) (inject_Z gap_len) fill width
                Hpos Hd' Hp n 0%nat 0%Q fuel) as (ops' & Hops' & Hdash).
    + change (inject_Z (Z.of_nat 0)) with 0%Q. ring.
    + apply enough_fuel; assumption.
    + exact Hfuel.
    + cbn [fst snd] in Hops'.
      rewrite (draws_unique _ _ _ Hops' Hops) in Hdash.
      exists ops. split; [exact Hops | split; [rewrite <- Hn; exact Hcount | ]].
      intros op Hin. apply In_nth_error in Hin. destruct Hin as [i Hi].
      destruct (Hdash i op Hi) as (a & b & Hop & _ & _ & _ & _ & _ & _ & Ha & Hb).
      exists a, b. repeat split; assumption.
Qed.

Lemma corner_edge_in_box (r : rect) (xa ya xb yb : Z) (p : point) :
  is_corner r xa ya -> is_corner r xb yb ->
  on_edge (qpoint xa ya) (qpoint xb yb) p -> in_box r p.
Proof.
  destruct r as [[[x0 y0] x1] y1]. unfold is_corner, in_box, on_edge, qpoint.
  cbn [rx0 rx1 ry0 ry1 fst snd].
  intros [Hax Hay] [Hbx Hby] (t & Ht0 & Ht1 & Ex & Ey).
  assert (Hbox : forall a b lo hi : Z, lo <= a <= hi -> lo <= b <= hi ->
                 forall v, (v == inject_Z a + t * (inject_Z b - inject_Z a))%Q ->
                           (inject_Z lo <= v)%Q /\ (v <= inject_Z hi)%Q).
  { intros a b lo hi [La Ha] [Lb Hb] v Ev.
    rewrite Zle_Qle in La, Ha, Lb, Hb.
    assert (M1 : (0 <= (1 - t) * (inject_Z a - inject_Z lo))%Q)
      by (apply Qmult_le_0_compat; lra).
    assert (M2 : (0 <= t * (inject_Z b - inject_Z lo))%Q)
      by (apply Qmult_le_0_compat; lra).
    assert (M3 : (0 <= (1 - t) * (inject_Z hi - inject_Z a))%Q)
      by (apply Qmult_le_0_compat; lra).
    assert (M4 : (0 <= t * (inject_Z hi - inject_Z b))%Q)
      by (apply Qmult_le_0_compat; lra).
    split; lra. }
  destruct (Hbox xa xb (Z.min x0 x1) (Z.max x0 x1) ltac:(lia) ltac:(lia) _ Ex).
  destruct (Hbox ya yb (Z.min y0 y1) (Z.max y0 y1) ltac:(lia) ltac:(lia) _ Ey).
  repeat split; assumption.
Qed.

(** X7: given [math.hypot] exact on axis-parallel differences,
    [dashed_rect] with dash and gap of at least one pixel returns after
    drawing, on each of the four edges, one dash per started period: as
    many as [2 * ceil(|x1 - x0| / period) + 2 * ceil(|y1 - y0| / period)]
    lines, all inside the bounding box of the rectangle, also when the
    rectangle is inverted. *)
Theorem dashed_rect_dashes (hypot : Q -> Q -> Q) (x0 y0 x1 y1 : Z)
        (dash_len gap_len : Z) (fill : color) (width : Z) :
  axis_exact hypot -> 1 <= dash_len -> 1 <= gap_len ->
  exists n, forall fuel, (n <= fuel)%nat ->
    exists ops,
      draws (dashed_rect hypot fuel (x0, y0, x1, y1) dash_len gap_len fill width) ops /\
      List.length ops =
        (2 * dashes_on (Z.abs (x1 - x0)) (dash_len + gap_len)
         + 2 * dashes_on (Z.abs (y1 - y0)) (dash_len + gap_len))%nat /\
      forall op, In op ops ->
        exists a b, op = draw_line a b fill width /\
                    in_box (x0, y0, x1, y1) a /\ in_box (x0, y0, x1, y1) b.
Proof.
  intros Haxis Hd Hg.
  assert (Hh : forall xa xb y : Z,
             (hypot (inject_Z xb - inject_Z xa) (inject_Z y - inject_Z y)
              == inject_Z (Z.abs (xb - xa)))%Q).
  { intros xa xb y. destruct (Haxis (inject_Z xb - inject_Z xa) (inject_Z y - inject_Z y))%Q
      as [H _]. rewrite H by ring. apply abs_of_difference. }
  assert (Hv : forall x ya yb : Z,
             (hypot (inject_Z x - inject_Z x) (inject_Z yb - inject_Z ya)
              == inject_Z (Z.abs (yb - ya)))%Q).
  { intros x ya yb. destruct (Haxis (inject_Z x - inject_Z x) (inject_Z yb - inject_Z ya))%Q
      as [_ H]. rewrite H by ring. apply abs_of_difference. }
  destruct (dashed_edge hypot x0 y0 x1 y0 _ dash_len gap_len fill width
                        Hd Hg (Z.abs_nonneg _) (Hh x0 x1 y0)) as [n1 H1].
  destruct (dashed_edge hypot x1 y0 x1 y1 _ dash_len gap_len fill width
                        Hd Hg (Z.abs_nonneg _) (Hv x1 y0 y1)) as [n2 H2].
  destruct (dashed_edge hypot x1 y1 x0 y1 _ dash_len gap_len fill width
                        Hd Hg (Z.abs_nonneg _) (Hh x1 x0 y1)) as [n3 H3].
  destruct (dashed_edge hypot x0 y1 x0 y0 _ dash_len gap_len fill width
                        Hd Hg (Z.abs_nonneg _) (Hv x0 y1 y0)) as [n4 H4].
  exists (n1 + n2 + n3 + n4)%nat. intros fuel Hfuel.
  destruct (H1 fuel ltac:(lia)) as (o1 & D1 & C1 & E1).
  destruct (H2 fuel ltac:(lia)) as (o2 & D2 & C2 & E2).
  destruct (H3 fuel ltac:(lia)) as (o3 & D3 & C3 & E3).
  destruct (H4 fuel ltac:(lia)) as (o4 & D4 & C4 & E4).
  exists (o1 ++ o2 ++ o3 ++ o4).
  split; [ | split].
  - unfold dashed_rect. repeat (apply draws_bind; [assumption | ]). exact D4.
  - rewrite !length_app, C1, C2, C3, C4.
    replace (Z.abs (x0 - x1)) with (Z.abs (x1 - x0)) by lia.
    replace (Z.abs (y0 - y1)) with (Z.abs (y1 - y0)) by lia. lia.
  - assert (Hc : forall xa ya xb yb op,
               is_corner (x0, y0, x1, y1) xa ya -> is_corner (x0, y0, x1, y1) xb yb ->
               (exists a b, op = draw_line a b fill width /\
                            on_edge (qpoint xa ya) (qpoint xb yb) a /\
                            on_edge (qpoint xa ya) (qpoint xb yb) b) ->
               exists a b, op = draw_line a b fill width /\
                           in_box (x0, y0, x1, y1) a /\ in_box (x0, y0, x1, y1) b).
    { intros xa ya xb yb op Ca Cb (a & b & Hop & Ha & Hb). exists a, b.
      split; [exact Hop | split; apply (corner_edge_in_box _ xa ya xb yb); assumption]. }
    intros op Hin. rewrite !in_app_iff in Hin.
    destruct Hin as [Hin | [Hin | [Hin | Hin]]].
    + apply (Hc x0 y0 x1 y0); [cbv; lia | cbv; lia | apply E1, Hin].
    + apply (Hc x1 y0 x1 y1); [cbv; lia | cbv; lia | apply E2, Hin].
    + apply (Hc x1 y1 x0 y1); [cbv; lia | cbv; lia | apply E3, Hin].
    + apply (Hc x0 y1 x0 y0); [cbv; lia | cbv; lia | apply E4, Hin].
Qed.

Lemma hypot_axis_exact : axis_exact hypot_axis.
Proof.
  intros dx dy. unfold hypot_axis. split; intros E; rewrite E;
    change (Qabs 0) with 0%Q; ring.
Qed.

Lemma dashed_rect_dashes_inverted :
  exists n, forall fuel, (n <= fuel)%nat ->
    exists ops,
      draws (dashed_rect hypot_axis fuel (61, 985, 59, 983) 1 1 ACCENT 1) ops /\
      List.length ops =
        (2 * dashes_on (Z.abs (59 - 61)) (1 + 1)
         + 2 * dashes_on (Z.abs (983 - 985)) (1 + 1))%nat /\
      forall op, In op ops ->
        exists a b, op = draw_line a b ACCENT 1 /\
                    in_box (61, 985, 59, 983) a /\ in_box (61, 985, 59, 983) b.
Proof.
  apply (dashed_rect_dashes hypot_axis 61 985 59 983 1 1 ACCENT 1).
  - exact hypot_axis_exact.
  - lia.
  - lia.
Defined.

(** X8: [corner_ticks] draws eight lines.  Each starts at a corner of the
    rectangle and runs [tick_len] pixels parallel to an axis; when
    [tick_len] is not negative and no more than the width and the height,
    each ends on the outline of the rectangle. *)
Theorem ticks_run_along_outline (r : rect) (tick_len width : Z) (fill : color) :
  0 <= tick_len ->
  tick_len <= rx1 r - rx0 r -> tick_len <= ry1 r - ry0 r ->
  exists ops,
    draws (corner_ticks r tick_len width fill) ops /\
    List.length ops = 8%nat /\
    forall op, In op ops ->
      exists xa ya xb yb,
        op = draw_line (qpoint xa ya) (qpoint xb yb) fill width /\
        is_corner r xa ya /\
        on_border r xb yb /\
        ((xb = xa /\ Z.abs (yb - ya) = tick_len) \/
         (yb = ya /\ Z.abs (xb - xa) = tick_len)).
Proof.
  intros Ht Hw Hh. destruct r as [[[x0 y0] x1] y1].
  cbn [rx0 rx1 ry0 ry1] in Hw, Hh. unfold corner_ticks.
  eexists. split; [do 7 apply draws_cons; apply draws_draw | ].
  split; [reflexivity | ].
  intros op Hin. cbn [In] in Hin.
  unfold is_corner, on_border. cbn [rx0 rx1 ry0 ry1].
  repeat (destruct Hin as [<- | Hin];
          [do 4 eexists; split; [reflexivity | lia] | ]).
  contradiction.
Qed.

Lemma ticks_run_along_outline_shipped :
  exists ops,
    draws (corner_ticks (60, 626, 1004, 866) 2 1 FG) ops /\
    List.length ops = 8%nat /\
    forall op, In op ops ->
      exists xa ya xb yb,
        op = draw_line (qpoint xa ya) (qpoint xb yb) FG 1 /\
        is_corner (60, 626, 1004, 866) xa ya /\
        on_border (60, 626, 1004, 866) xb yb /\
        ((xb = xa /\ Z.abs (yb - ya) = 2) \/
         (yb = ya /\ Z.abs (xb - xa) = 2)).
Proof.
  apply (ticks_run_along_outline (60, 626, 1004, 866) 2 1 FG); cbn; lia.
Defined.

(* ====================================================================== *)
(** ** More on the scale and the placement *)
(* ====================================================================== *)

(** X9: every side of every cut rectangle is within half a pixel of the
    face's size in meters times the scale. *)
Theorem footprint_within_half_pixel (cfg : Config) (sc : Q) (r : nat) (y : Z) :
  let g := row_geom cfg sc r y in
  (Qabs (inject_Z (rx1 (cut0 g) - rx0 (cut0 g)) - wm0 g * sc) <= 1 # 2)%Q /\
  (Qabs (inject_Z (ry1 (cut0 g) - ry0 (cut0 g)) - hm0 g * sc) <= 1 # 2)%Q /\
  (Qabs (inject_Z (rx1 (cut1 g) - rx0 (cut1 g)) - wm1 g * sc) <= 1 # 2)%Q /\
  (Qabs (inject_Z (ry1 (cut1 g) - ry0 (cut1 g)) - hm1 g * sc) <= 1 # 2)%Q.
Proof.
  intros g. destruct (footprints cfg sc r y) as (E0 & E1 & E2 & E3).
  fold g in E0, E1, E2, E3. rewrite E0, E1, E2, E3.
  assert (Hnear : forall x, (Qabs (inject_Z (Py.round x) - x) <= 1 # 2)%Q).
  { intros x. destruct (round_near x) as [Hlo Hhi].
    apply Qabs_Qle_condition. split; lra. }
  repeat split; apply Hnear.
Qed.



(** X11: the grid is centred on the canvas to the pixel, and in a valid
    configuration it keeps the outer margin on all four sides up to the
    one pixel that rounding the cells can cost. *)
Theorem margin_kept_up_to_rounding (cfg : Config) (sc : Q) :
  positive_panels (grid cfg) ->
  0 < avail_w_px cfg -> 0 < avail_h_px cfg ->
  s cfg = Ok sc ->
  let left := grid_x0 cfg sc in
  let right := CANVAS_W cfg - (grid_x0 cfg sc + grid_w_px cfg sc) in
  let top := grid_y0 cfg sc in
  let bottom := CANVAS_H cfg - (grid_y0 cfg sc + grid_h_px cfg sc) in
  (left <= right <= left + 1) /\ (top <= bottom <= top + 1) /\
  MARGIN_PX cfg - 1 <= left /\ MARGIN_PX cfg - 1 <= top /\
  MARGIN_PX cfg - 1 <= right /\ MARGIN_PX cfg - 1 <= bottom.
Proof.
  intros Hp Hw Hh Hs.
  destruct (grid_fits cfg sc Hp Hw Hh Hs)
    as (_ & _ & _ & _ & _ & Hcs & Hrs & Hgw & Hgh).
  unfold avail_w_px in Hcs. unfold avail_h_px in Hrs.
  unfold grid_x0, grid_y0. rewrite Hgw, Hgh. cbv zeta.
  repeat split; Z.to_euclidean_division_equations; lia.
Qed.

Lemma margin_kept_up_to_rounding_shipped :
  let sc := (188800 # 2440)%Q in
  let left := grid_x0 shipped sc in
  let right := CANVAS_W shipped - (grid_x0 shipped sc + grid_w_px shipped sc) in
  let top := grid_y0 shipped sc in
  let bottom := CANVAS_H shipped - (grid_y0 shipped sc + grid_h_px shipped sc) in
  (left <= right <= left + 1) /\ (top <= bottom <= top + 1) /\
  MARGIN_PX shipped - 1 <= left /\ MARGIN_PX shipped - 1 <= top /\
  MARGIN_PX shipped - 1 <= right /\ MARGIN_PX shipped - 1 <= bottom.
Proof.
  apply (margin_kept_up_to_rounding shipped (188800 # 2440)).
  - repeat constructor; reflexivity.
  - reflexivity.
  - reflexivity.
  - vm_compute. reflexivity.
Defined.

(** X12: with a scale that is not negative, every face lies inside its
    grid cell vertically and is centred there to the pixel; so is the left
    face horizontally, and the right face of a row that is not butted. *)
Theorem faces_centred_in_cells (cfg : Config) (sc : Q) (r : nat) (y : Z) :
  (0 <= sc)%Q -> (r < 3)%nat ->
  let g := row_geom cfg sc r y in
  let centred lo hi a b := lo <= a /\ b <= hi /\ a - lo <= hi - b <= a - lo + 1 in
  let x_left := grid_x0 cfg sc in
  let x_right := x_left + Py.get 0 (cols_px cfg sc) 0 + COL_GAP_PX cfg in
  centred y (y + cell_h g) (ry0 (cut0 g)) (ry1 (cut0 g)) /\
  centred y (y + cell_h g) (ry0 (cut1 g)) (ry1 (cut1 g)) /\
  centred x_left (x_left + Py.get 0 (cols_px cfg sc) 0) (rx0 (cut0 g)) (rx1 (cut0 g)) /\
  (butted g = false ->
   centred x_right (x_right + Py.get 0 (cols_px cfg sc) 1) (rx0 (cut1 g)) (rx1 (cut1 g))).
Proof.
  intros Hsc Hr g.
  destruct (face_px_within_cell cfg sc r 0 Hsc Hr ltac:(lia)) as [Fw0 Fh0].
  destruct (face_px_within_cell cfg sc r 1 Hsc Hr ltac:(lia)) as [Fw1 Fh1].
  destruct (row_geom_cuts cfg sc r y) as (_ & Hch & Hc0 & Hc1 & _).
  fold g in Hch, Hc0, Hc1. rewrite Hch, Hc0, Hc1. cbv zeta. cbn [rx0 rx1 ry0 ry1].
  split; [ | split; [ | split]].
  - Z.to_euclidean_division_equations; lia.
  - Z.to_euclidean_division_equations; lia.
  - Z.to_euclidean_division_equations; lia.
  - intros Hb. rewrite Hb. Z.to_euclidean_division_equations; lia.
Qed.

Lemma faces_centred_in_cells_shipped_row1 :
  let cfg := shipped in
  let sc := (188800 # 2440)%Q in
  let y := 906 in
  let g := row_geom cfg sc 1 y in
  let centred lo hi a b := lo <= a /\ b <= hi /\ a - lo <= hi - b <= a - lo + 1 in
  let x_left := grid_x0 cfg sc in
  let x_right := x_left + Py.get 0 (cols_px cfg sc) 0 + COL_GAP_PX cfg in
  centred y (y + cell_h g) (ry0 (cut0 g)) (ry1 (cut0 g)) /\
  centred y (y + cell_h g) (ry0 (cut1 g)) (ry1 (cut1 g)) /\
  centred x_left (x_left + Py.get 0 (cols_px cfg sc) 0) (rx0 (cut0 g)) (rx1 (cut0 g)) /\
  (butted g = false ->
   centred x_right (x_right + Py.get 0 (cols_px cfg sc) 1) (rx0 (cut1 g)) (rx1 (cut1 g))).
Proof.
  apply (faces_centred_in_cells shipped (188800 # 2440) 1 906).
  - vm_compute. discriminate.
  - lia.
Defined.

(** X13: with a scale and gaps that are not negative no two faces
    overlap: in a row the left face ends where or before the right one
    starts, and every face of a row ends above where the faces of the
    later rows start. *)
Theorem faces_do_not_overlap (cfg : Config) (sc : Q) :
  (0 <= sc)%Q -> 0 <= COL_GAP_PX cfg -> 0 <= ROW_GAP_PX cfg ->
  forall r, (r < 3)%nat ->
    let g := row_geom cfg sc r (row_y cfg sc r) in
    rx1 (cut0 g) <= rx0 (cut1 g) /\
    forall r', (r < r' < 3)%nat ->
      let g' := row_geom cfg sc r' (row_y cfg sc r') in
      Z.max (ry1 (cut0 g)) (ry1 (cut1 g)) <= Z.min (ry0 (cut0 g')) (ry0 (cut1 g')).
Proof.
  intros Hsc Hcg Hrg r Hr g.
  assert (Hface : forall q, (q < 3)%nat ->
            let h := row_geom cfg sc q (row_y cfg sc q) in
            row_y cfg sc q <= ry0 (cut0 h) /\ ry1 (cut0 h) <= row_y cfg sc q + cell_h h /\
            row_y cfg sc q <= ry0 (cut1 h) /\ ry1 (cut1 h) <= row_y cfg sc q + cell_h h /\
            rx1 (cut0 h) <= rx0 (cut1 h)).
  { intros q Hq h.
    destruct (face_px_within_cell cfg sc q 0 Hsc Hq ltac:(lia)) as [Fw0 Fh0].
    destruct (face_px_within_cell cfg sc q 1 Hsc Hq ltac:(lia)) as [Fw1 Fh1].
    destruct (row_geom_cuts cfg sc q (row_y cfg sc q)) as (_ & Hch & Hc0 & Hc1 & _).
    fold h in Hch, Hc0, Hc1. rewrite Hch, Hc0, Hc1. cbn [rx0 rx1 ry0 ry1].
    destruct (butted h); repeat split; Z.to_euclidean_division_equations; lia. }
  assert (Hcell : forall q, (q < 3)%nat ->
            0 <= cell_h (row_geom cfg sc q (row_y cfg sc q))).
  { intros q Hq.
    destruct (row_geom_cuts cfg sc q (row_y cfg sc q)) as (_ & -> & _).
    destruct (px_sizes cfg sc) as [_ ->].
    destruct (extents_nonneg cfg) as [_ Nr].
    unfold rows_m in *. rewrite extents_unrolled in *. cbn [snd] in *.
    repeat match goal with
           | H : Forall _ (_ :: _) |- _ => inversion H; clear H; subst
           end.
    destruct q as [ | [ | [ | q]]]; try lia; cbn [Py.get nth];
      apply round_nonneg, Qmult_le_0_compat; assumption. }
  destruct (Hface r Hr) as (_ & B0 & _ & B1 & Hx). fold g in B0, B1, Hx.
  split; [exact Hx | ].
  intros r' Hr' g'.
  destruct (Hface r' ltac:(lia)) as (T0 & _ & T1 & _). fold g' in T0, T1.
  assert (Hy : row_y cfg sc r + cell_h g <= row_y cfg sc r').
  { pose proof (Hcell 0%nat ltac:(lia)) as H0.
    pose proof (Hcell 1%nat ltac:(lia)) as H1.
    subst g. destruct r as [ | [ | r]]; destruct r' as [ | [ | [ | r']]]; try lia;
      cbn [row_y] in *; lia. }
  lia.
Qed.

Lemma faces_do_not_overlap_shipped :
  let g := row_geom shipped (188800 # 2440) 0 (row_y shipped (188800 # 2440) 0) in
  rx1 (cut0 g) <= rx0 (cut1 g) /\
  let g' := row_geom shipped (188800 # 2440) 2 (row_y shipped (188800 # 2440) 2) in
  Z.max (ry1 (cut0 g)) (ry1 (cut1 g)) <= Z.min (ry0 (cut0 g')) (ry0 (cut1 g')).
Proof.
  assert (Hsc : (0 <= 188800 # 2440)%Q) by (vm_compute; discriminate).
  assert (Hcg : 0 <= COL_GAP_PX shipped) by (vm_compute; discriminate).
  assert (Hrg : 0 <= ROW_GAP_PX shipped) by (vm_compute; discriminate).
  destruct (faces_do_not_overlap shipped (188800 # 2440) Hsc Hcg Hrg 0%nat ltac:(lia))
    as [Hx Hy].
  split; [exact Hx | exact (Hy 2%nat ltac:(lia))].
Defined.

(* ====================================================================== *)
(** ** Normalised coordinates *)
(* ====================================================================== *)

(** With a margin of a pixel and gaps that are not negative the cut
    rectangles of a valid configuration lie within the canvas. *)
Lemma cut_rects_fit (cfg : Config) (sc : Q) (r : nat) :
  positive_panels (grid cfg) ->
  0 < avail_w_px cfg -> 0 < avail_h_px cfg ->
  1 <= MARGIN_PX cfg -> 0 <= COL_GAP_PX cfg -> 0 <= ROW_GAP_PX cfg ->
  s cfg = Ok sc ->
  (r < 3)%nat ->
  let g := row_geom cfg sc r (row_y cfg sc r) in
  within_canvas cfg (cut0 g) /\ within_canvas cfg (cut1 g).
Proof.
  intros Hp Hw Hh Hm Hcg Hrg Hs Hr g.
  destruct (scale_fits cfg sc Hp Hw Hh Hs) as (Hsc & _ & _).
  assert (Hsc' : (0 <= sc)%Q) by lra.
  destruct (grid_fits cfg sc Hp Hw Hh Hs)
    as (C0 & C1 & R0 & R1 & R2 & Hcs & Hrs & Hgw & Hgh).
  destruct (face_px_within_cell cfg sc r 0 Hsc' Hr ltac:(lia)) as [Fw0 Fh0].
  destruct (face_px_within_cell cfg sc r 1 Hsc' Hr ltac:(lia)) as [Fw1 Fh1].
  assert (Hnn : forall c, 0 <= Py.round (width_m (cell (grid cfg) r c) * sc) /\
                          0 <= Py.round (height_m (cell (grid cfg) r c) * sc)).
  { intros c. destruct (positive_cells _ Hp r c) as [Pw Ph].
    split; apply round_nonneg; apply Qmult_le_0_compat; lra. }
  destruct (Hnn 0%nat) as [Nw0 Nh0]. destruct (Hnn 1%nat) as [Nw1 Nh1]. clear Hnn.
  destruct (row_geom_cuts cfg sc r (row_y cfg sc r)) as (_ & _ & Hc0 & Hc1 & _).
  fold g in Hc0, Hc1.
  destruct (row_y_values cfg sc) as (Y0 & Y1 & Y2).
  assert (Hx : grid_x0 cfg sc = (CANVAS_W cfg - grid_w_px cfg sc) / 2) by reflexivity.
  assert (Hy : grid_y0 cfg sc = (CANVAS_H cfg - grid_h_px cfg sc) / 2) by reflexivity.
  unfold avail_w_px in Hcs. unfold avail_h_px in Hrs.
  rewrite Hgw in Hx. rewrite Hgh in Hy.
  rewrite Hc0, Hc1. unfold within_canvas. cbn [rx0 rx1 ry0 ry1].
  generalize dependent (grid_x0 cfg sc). generalize dependent (grid_y0 cfg sc).
  intros gy Y0 Y1 Y2 Hy gx Hx.
  destruct (butted g);
    destruct r as [ | [ | [ | r]]]; try lia;
    [rewrite Y0 | rewrite Y1 | rewrite Y2 | rewrite Y0 | rewrite Y1 | rewrite Y2];
    Z.to_euclidean_division_equations; lia.
Qed.

Lemma rows_are_rows (cfg : Config) (sc : Q) (g : RowGeom) :
  In g (rows cfg sc) ->
  exists r, (r < 3)%nat /\ g = row_geom cfg sc r (row_y cfg sc r).
Proof.
  unfold rows. rewrite in_map_iff. intros (r & <- & Hr).
  apply in_seq in Hr. exists r. split; [lia | reflexivity].
Qed.

Lemma uv_dict_in_unit_square (cfg : Config) (r : rect) :
  within_canvas cfg r -> CANVAS_W cfg <> 0 -> CANVAS_H cfg <> 0 ->
  uv_in_unit_square (uv_dict r (CANVAS_W cfg) (CANVAS_H cfg)).
Proof.
  destruct r as [[[x0 y0] x1] y1]. unfold within_canvas. cbn [rx0 rx1 ry0 ry1].
  intros (X0 & X1 & X2 & Y0 & Y1 & Y2) Hw Hh.
  assert (Pw : (0 < inject_Z (CANVAS_W cfg))%Q) by (apply inject_Z_positive; lia).
  assert (Ph : (0 < inject_Z (CANVAS_H cfg))%Q) by (apply inject_Z_positive; lia).
  rewrite Zle_Qle in X0, X1, X2, Y0, Y1, Y2.
  change (inject_Z 0) with 0%Q in X0, Y0.
  unfold uv_in_unit_square, uv_dict. do 8 eexists. split; [reflexivity | ].
  assert (Hdiv : forall a b c : Q, (0 < c)%Q -> (a <= b)%Q -> (a / c <= b / c)%Q).
  { intros a b c Hc Hab. apply Qle_shift_div_l; [exact Hc | ].
    assert (E : (a / c * c == a)%Q) by (field; lra). lra. }
  assert (Hone : forall a c : Q, (0 < c)%Q -> (a <= c)%Q -> (a / c <= 1)%Q)
    by (intros a c Hc Hac; apply Qle_shift_div_r; lra).
  assert (Hzero : forall a c : Q, (0 < c)%Q -> (0 <= a)%Q -> (0 <= a / c)%Q)
    by (intros a c Hc Ha; apply Qle_shift_div_l; lra).
  repeat split; first [apply Hzero | apply Hone | apply Hdiv]; assumption.
Qed.

(** X14: in a valid configuration with a margin of at least one pixel and
    gaps that are not negative, the normalised cut rectangle of every
    record of a finished run lies in the unit square, [u0 <= u1] and
    [v0 <= v1]. *)
Theorem cut_uv_in_unit_square (hypot : Q -> Q -> Q) (fuel : nat) (cfg : Config)
        (png : list DrawOp) (meta : json) :
  positive_panels (grid cfg) ->
  0 < avail_w_px cfg -> 0 < avail_h_px cfg ->
  1 <= MARGIN_PX cfg -> 0 <= COL_GAP_PX cfg -> 0 <= ROW_GAP_PX cfg ->
  run hypot fuel cfg = Finished png meta ->
  exists fs,
    lookup "faces" meta = Some (JList fs) /\
    forall f, In f fs ->
      exists c, lookup "cut_rect" f = Some c /\ uv_in_unit_square c.
Proof.
  intros Hp Hw Hh Hm Hcg Hrg Hrun.
  destruct (run_finished_meta hypot fuel cfg png meta Hrun)
    as (sc & Hs & Nw & Nh & _ & ->).
  exists (face_records cfg sc). split; [reflexivity | ].
  intros f Hf.
  destruct (record_rects cfg sc f Hf) as (g & cut & safe & Hg & Hin & Hc & _).
  destruct (rows_are_rows cfg sc g Hg) as (r & Hr & ->).
  destruct (cut_rects_fit cfg sc r Hp Hw Hh Hm Hcg Hrg Hs Hr) as [F0 F1].
  exists (uv_dict cut (CANVAS_W cfg) (CANVAS_H cfg)). split; [exact Hc | ].
  apply uv_dict_in_unit_square; try assumption.
  unfold row_faces in Hin. cbn [In] in Hin.
  destruct Hin as [E | [E | []]]; apply pair_equal_spec in E;
    destruct E as [<- _]; assumption.
Qed.

Lemma thumbnail_finishes :
  exists png meta, run hypot_axis 16 thumbnail = Finished png meta.
Proof. eexists _, _. vm_compute. reflexivity. Defined.

Lemma cut_uv_in_unit_square_thumbnail :
  exists png meta,
    run hypot_axis 16 thumbnail = Finished png meta /\
    exists fs,
      lookup "faces" meta = Some (JList fs) /\
      forall f, In f fs ->
        exists c, lookup "cut_rect" f = Some c /\ uv_in_unit_square c.
Proof.
  destruct thumbnail_finishes as (png & meta & Hrun).
  exists png, meta. split; [exact Hrun | ].
  apply (cut_uv_in_unit_square hypot_axis 16%nat thumbnail png meta).
  - repeat constructor; reflexivity.
  - reflexivity.
  - reflexivity.
  - vm_compute. discriminate.
  - vm_compute. discriminate.
  - vm_compute. discriminate.
  - exact Hrun.
Defined.

(* ====================================================================== *)
(** ** The marks on the sheet *)
(* ====================================================================== *)

Lemma lines_only_ret : lines_only (ret tt).
Proof.
  intros w w' E. injection E as <-. exists []. rewrite app_nil_r. split; reflexivity.
Qed.

Lemma lines_only_line (a b : point) (fill : color) (width : Z) :
  lines_only (draw (draw_line a b fill width)).
Proof.
  intros w w' E. injection E as <-. eexists. split; reflexivity.
Qed.

Lemma lines_only_bind (m1 m2 : M unit) :
  lines_only m1 -> lines_only m2 -> lines_only (bind m1 (fun _ => m2)).
Proof.
  intros H1 H2 w w' E. unfold bind in E.
  destruct (m1 w) as [[] w1 | e w1 | ] eqn:E1; try discriminate.
  destruct (H1 w w1 E1) as (o1 & D1 & F1).
  destruct (H2 w1 w' E) as (o2 & D2 & F2).
  exists (o1 ++ o2). split.
  - rewrite D2, D1, app_assoc. reflexivity.
  - rewrite filter_app, F1, F2. reflexivity.
Qed.

Lemma dashed_loop_lines (x1 y1 ux uy len dash_len gap_len : Q)
      (fill : color) (width : Z) (fuel : nat) :
  forall dist,
    lines_only (dashed_loop fuel x1 y1 ux uy len dash_len gap_len fill width dist).
Proof.
  induction fuel as [ | fuel IH]; intros dist; rewrite dashed_loop_unfold;
    destruct (Qltb dist len); try apply lines_only_ret.
  - intros w w' E. discriminate.
  - cbv zeta. apply lines_only_bind; [apply lines_only_line | apply IH].
Qed.

Lemma dashed_rect_lines (hypot : Q -> Q -> Q) (fuel : nat) (r : rect)
      (dash_len gap_len : Z) (fill : color) (width : Z) :
  lines_only (dashed_rect hypot fuel r dash_len gap_len fill width).
Proof.
  assert (Hline : forall p1 p2 d g,
             lines_only (dashed_line hypot fuel p1 p2 d g fill width)).
  { intros [x1 y1] [x2 y2] d g. unfold dashed_line.
    destruct (Qle_bool _ 0); [apply lines_only_ret | apply dashed_loop_lines]. }
  destruct r as [[[x0 y0] x1] y1]. unfold dashed_rect.
  repeat (apply lines_only_bind; [apply Hline | ]). apply Hline.
Qed.

Lemma corner_ticks_lines (r : rect) (tick_len width : Z) (fill : color) :
  lines_only (corner_ticks r tick_len width fill).
Proof.
  destruct r as [[[x0 y0] x1] y1]. unfold corner_ticks.
  do 7 (apply lines_only_bind; [apply lines_only_line | ]). apply lines_only_line.
Qed.

Lemma lines_filter (m : M unit) (ops : list DrawOp) :
  does m ops [] (Ok tt) -> lines_only m -> filter not_line ops = [].
Proof.
  intros Hd Hl. specialize (Hd (mkWorld [] [])). cbn [finish drawn meta_faces app] in Hd.
  destruct (Hl _ _ Hd) as (ops' & E & F). cbn [drawn app] in E. subst ops'. exact F.
Qed.

(** One iteration on a canvas without a zero side, with what it draws
    apart from lines. *)
Lemma render_row_marks (cfg : Config) (sc : Q) (hypot : Q -> Q -> Q) (r : nat) (y : Z) :
  let g := row_geom cfg sc r y in
  CANVAS_W cfg <> 0 -> CANVAS_H cfg <> 0 ->
  exists n, forall fuel, (n <= fuel)%nat ->
    exists ops,
      does (render_row cfg sc hypot fuel r y) ops
           [left_json cfg g; right_json cfg g]
           (Ok (y + cell_h g + ROW_GAP_PX cfg)) /\
      filter not_line ops = row_marks cfg sc g.
Proof.
  intros g Hw Hh. destruct (row_fuel cfg sc hypot r y) as [n Hn]. fold g in Hn.
  exists n. intros fuel Hfuel.
  destruct (Hn fuel Hfuel) as (o0 & o1 & D0 & D1).
  destruct (corner_ticks_does (cut0 g) (TICK_LEN cfg sc) (TICK_W cfg sc) FG) as [t0 T0].
  destruct (corner_ticks_does (cut1 g) (TICK_LEN cfg sc) (TICK_W cfg sc) FG) as [t1 T1].
  pose proof (lines_filter _ _ D0 (dashed_rect_lines _ _ _ _ _ _ _)) as F0.
  pose proof (lines_filter _ _ D1 (dashed_rect_lines _ _ _ _ _ _ _)) as F1.
  pose proof (lines_filter _ _ T0 (corner_ticks_lines _ _ _ _)) as G0.
  pose proof (lines_filter _ _ T1 (corner_ticks_lines _ _ _ _)) as G1.
  unfold render_row, row_marks. fold g.
  destruct (records_ok cfg g Hw Hh) as [-> ->].
  destruct (cut0 g) as [[[a0 b0] c0] d0].
  destruct (cut1 g) as [[[a1 b1] c1] d1].
  cbn [rx0 rx1 ry0 ry1].
  destruct (butted g).
  - eexists. split.
    + eapply does_shape; [repeat does_step; apply does_ret | reflexivity | reflexivity].
    + cbn [app filter not_line]. rewrite !filter_app, F0, F1, G0, G1. reflexivity.
  - eexists. split.
    + eapply does_shape; [repeat does_step; apply does_ret | reflexivity | reflexivity].
    + cbn [app filter not_line]. rewrite !filter_app, F0, F1, G0, G1. reflexivity.
Qed.

Lemma render_marks (cfg : Config) (sc : Q) (hypot : Q -> Q -> Q) :
  CANVAS_W cfg <> 0 -> CANVAS_H cfg <> 0 ->
  exists n, forall fuel, (n <= fuel)%nat ->
    exists ops,
      does (render cfg sc hypot fuel) ops (face_records cfg sc) (Ok tt) /\
      filter not_line ops = flat_map (row_marks cfg sc) (rows cfg sc) ++ titles cfg sc.
Proof.
  intros Hw Hh.
  destruct (render_row_marks cfg sc hypot 0 (row_y cfg sc 0) Hw Hh) as [n0 H0].
  destruct (render_row_marks cfg sc hypot 1 (row_y cfg sc 1) Hw Hh) as [n1 H1].
  destruct (render_row_marks cfg sc hypot 2 (row_y cfg sc 2) Hw Hh) as [n2 H2].
  exists (n0 + n1 + n2)%nat. intros fuel Hfuel.
  destruct (H0 fuel ltac:(lia)) as (o0 & D0 & F0).
  destruct (H1 fuel ltac:(lia)) as (o1 & D1 & F1).
  destruct (H2 fuel ltac:(lia)) as (o2 & D2 & F2).
  unfold render. cbn [seq render_rows].
  eexists. split.
  - eapply does_shape.
    + eapply does_bind.
      { do 3 (eapply does_bind; [eassumption | cbv beta]). apply does_ret. }
      cbv beta. does_step. apply does_draw.
    + reflexivity.
    + reflexivity.
  - rewrite !filter_app, F0, F1, F2. unfold rows, titles.
    cbn [map seq flat_map filter not_line app]. rewrite !app_nil_r.
    rewrite <- !app_assoc. reflexivity.
Qed.

(** X15: apart from lines, a finished run has drawn, row by row, the
    outline of the left and of the right face in the cut thickness, their
    two labels 14 pixels above the top-left corner of the safe rectangle
    and, in butted rows only, the seam label 6 pixels right of the shared
    edge at the middle of the vertical overlap; then the two title lines
    above the grid origin. *)
Theorem marks_on_the_sheet (hypot : Q -> Q -> Q) (fuel : nat) (cfg : Config)
        (png : list DrawOp) (meta : json) :
  run hypot fuel cfg = Finished png meta ->
  exists sc,
    s cfg = Ok sc /\
    filter not_line png = flat_map (row_marks cfg sc) (rows cfg sc) ++ titles cfg sc.
Proof.
  intros Hrun.
  destruct (run_finished_meta hypot fuel cfg png meta Hrun) as (sc & Hs & Hw & Hh & _).
  exists sc. split; [exact Hs | ].
  destruct (render_marks cfg sc hypot Hw Hh) as [n Hn].
  destruct (Hn (Nat.max fuel n) ltac:(lia)) as (ops & Hdoes & Hmarks).
  assert (Hbig : run hypot (Nat.max fuel n) cfg = Finished png meta).
  { rewrite (run_extends hypot cfg fuel (Nat.max fuel n)); [exact Hrun | lia | ].
    rewrite Hrun. discriminate. }
  unfold run in Hbig. rewrite Hs, Hdoes in Hbig. cbn [finish drawn app] in Hbig.
  injection Hbig as <- _. exact Hmarks.
Qed.

Lemma marks_on_the_sheet_thumbnail :
  exists png meta,
    run hypot_axis 16 thumbnail = Finished png meta /\
    exists sc,
      s thumbnail = Ok sc /\
      filter not_line png =
      flat_map (row_marks thumbnail sc) (rows thumbnail sc) ++ titles thumbnail sc.
Proof.
  destruct thumbnail_finishes as (png & meta & Hrun).
  exists png, meta. split; [exact Hrun | ].
  exact (marks_on_the_sheet hypot_axis 16%nat thumbnail png meta Hrun).
Defined.
